(** * iPhone-G-Sensor: the GPS/INS fusion engine and the altitude fusion

    A shallow embedding of the estimators of [g_sensor_app.py] (the
    on-device application) and [log_viewer.py] (the offline log viewer):

    - [AltitudeFusion]  : [log_viewer.py], class [AltitudeFusion];
    - [App]             : [g_sensor_app.py], class [GPSINSFusion];
    - [Viewer]          : [log_viewer.py], class [GPSINSFusion].

    Python floats are read as real numbers: [+], [*], [/] and the
    comparisons are those of [R], [math.pi] is [PI], [math.cos], [math.sin]
    and [math.sqrt] are [cos], [sin] and [sqrt].  Rounding, infinities and
    NaN are outside the model.  Division is the total division of [R]; the
    only divisors of the code that can vanish over the reals are
    [EARTH_RADIUS * cos (radians current_lat)], and no claim below depends
    on the quotient.

    [None] is [option]'s [None]; Python's truth test of a value that is a
    float or [None] is [truthy].  Objects mutated in place become explicit
    state passing: every method takes the object's state and returns the
    new one.  [time.time()] is an extra argument [now]. *)

From Stdlib Require Import Reals Lra Lia ZArith List Bool String.
Import ListNotations.

Open Scope R_scope.

(** ** Numbers *)

Definition Rltb (x y : R) : bool := if Rlt_dec x y then true else false.
Definition Rleb (x y : R) : bool := if Rle_dec x y then true else false.
Definition Rgtb (x y : R) : bool := Rltb y x.
Definition Rgeb (x y : R) : bool := Rleb y x.
Definition Rneqb (x y : R) : bool := if Req_dec_T x y then false else true.

(** Case analysis on every comparison left in the goal, closing the
    arithmetic with [lra]. *)
Ltac cmp_cases :=
  unfold Rgeb, Rgtb, Rleb, Rltb, Rneqb in *;
  repeat match goal with
    | |- context [Rlt_dec ?a ?b] => destruct (Rlt_dec a b)
    | |- context [Rle_dec ?a ?b] => destruct (Rle_dec a b)
    | |- context [Req_dec_T ?a ?b] => destruct (Req_dec_T a b)
    | H : context [Rlt_dec ?a ?b] |- _ => destruct (Rlt_dec a b)
    | H : context [Rle_dec ?a ?b] |- _ => destruct (Rle_dec a b)
    | H : context [Req_dec_T ?a ?b] |- _ => destruct (Req_dec_T a b)
    end;
  simpl in *; try lra; try congruence.

(** [math.radians] and [math.degrees]. *)
Definition radians (d : R) : R := d * PI / 180.
Definition degrees (r : R) : R := r * 180 / PI.

(** Truth value of [x] where [x] is a float or [None]: [None] and [0.0]
    are false. *)
Definition truthy (x : option R) : bool :=
  match x with
  | Some v => Rneqb v 0
  | None => false
  end.

(** A triple of floats: [user_accel = (ax, ay, az)] and
    [attitude = (roll, pitch, yaw)]. *)
Definition triple : Type := (R * R * R)%type.

(** ** [log_viewer.py]: class [AltitudeFusion] *)

Module AltitudeFusion.

Record state : Type := mkstate {
  gps_altitude : option R;
  baro_reference : option R;
  fused_altitude : option R;
  vertical_velocity : R
}.

(** [__init__] and [reset]. *)
Definition init : state :=
  {| gps_altitude := None; baro_reference := None;
     fused_altitude := None; vertical_velocity := 0 |}.

Definition set_gps_altitude (v : option R) (s : state) : state :=
  {| gps_altitude := v; baro_reference := baro_reference s;
     fused_altitude := fused_altitude s;
     vertical_velocity := vertical_velocity s |}.

Definition set_baro_reference (v : option R) (s : state) : state :=
  {| gps_altitude := gps_altitude s; baro_reference := v;
     fused_altitude := fused_altitude s;
     vertical_velocity := vertical_velocity s |}.

Definition set_fused_altitude (v : option R) (s : state) : state :=
  {| gps_altitude := gps_altitude s; baro_reference := baro_reference s;
     fused_altitude := v;
     vertical_velocity := vertical_velocity s |}.

Definition set_vertical_velocity (v : R) (s : state) : state :=
  {| gps_altitude := gps_altitude s; baro_reference := baro_reference s;
     fused_altitude := fused_altitude s;
     vertical_velocity := v |}.

(** [update(gps_alt, gps_v_acc, baro_relative, accel_z, dt)]: the new state
    and the returned fused altitude. *)
Definition update (s : state)
    (gps_alt gps_v_acc baro_relative accel_z : option R) (dt : R)
  : state * option R :=
  match gps_altitude s with
  | None =>
      (* if self.gps_altitude is None: *)
      match gps_alt with
      | Some a =>
          if Rneqb a 0 then
            let s' :=
              {| gps_altitude := Some a;
                 baro_reference :=
                   Some (match baro_relative with Some b => b | None => 0 end);
                 fused_altitude := Some a;
                 vertical_velocity := vertical_velocity s |} in
            (s', fused_altitude s')
          else (s, None)
      | None => (s, None)
      end
  | Some g =>
      (* barometric change, else fall back to the raw GPS altitude *)
      let s1 :=
        match baro_relative, baro_reference s with
        | Some b, Some b0 =>
            let delta_baro := b - b0 in
            set_fused_altitude (Some (g + delta_baro)) s
        | _, _ =>
            match gps_alt with
            | Some a =>
                if Rneqb a 0 then set_fused_altitude (Some a) s else s
            | None => s
            end
        end in
      (* vertical velocity from the Z acceleration *)
      let s2 :=
        match accel_z with
        | Some az =>
            if Rgtb dt 0 then
              set_vertical_velocity
                ((vertical_velocity s1 + az * 9.81 * dt) * 0.95) s1
            else s1
        | None => s1
        end in
      (* re-anchoring on a good vertical accuracy *)
      let s3 :=
        match gps_alt, gps_v_acc with
        | Some a, Some v =>
            if Rgtb v 0 && Rltb v 15 then
              let weight := 0.3 in
              let s' :=
                set_gps_altitude (Some ((1 - weight) * g + weight * a)) s2 in
              match baro_relative with
              | Some b => set_baro_reference (Some b) s'
              | None => s'
              end
            else s2
        | _, _ => s2
        end in
      (s3, fused_altitude s3)
  end.

(** One call of [update], as the viewer's loop makes it. *)
Record call : Type := mkcall {
  c_gps_alt : option R;
  c_gps_v_acc : option R;
  c_baro_relative : option R;
  c_accel_z : option R;
  c_dt : R
}.

Definition step (s : state) (c : call) : state * option R :=
  update s (c_gps_alt c) (c_gps_v_acc c) (c_baro_relative c)
    (c_accel_z c) (c_dt c).

(** A sequence of calls on one object: the final state and the returned
    values, in order. *)
Fixpoint run (s : state) (cs : list call) : state * list (option R) :=
  match cs with
  | [] => (s, [])
  | c :: cs' =>
      let (s1, r) := step s c in
      let (s2, rs) := run s1 cs' in
      (s2, r :: rs)
  end.

(** The states an [AltitudeFusion] object can be in: those reached from
    [init] by calls of [update]. *)
Inductive reachable : state -> Prop :=
| reachable_init : reachable init
| reachable_update s ga va b az dt :
    reachable s -> reachable (fst (update s ga va b az dt)).

(** A GPS altitude the anchoring and the fallback ignore: absent, or 0. *)
Definition ignored_alt (gps_alt : option R) : Prop :=
  gps_alt = None \/ gps_alt = Some 0.

(** The object has been anchored: both references are set. *)
Definition anchored (s : state) (g b0 : R) : Prop :=
  gps_altitude s = Some g /\ baro_reference s = Some b0.

End AltitudeFusion.

(** ** Exceptions

    The application's engine keeps its position in fields that are [None]
    until the first fix; arithmetic on a [None] raises [TypeError]. *)

Inductive exn : Type := TypeError.

Inductive result (A : Type) : Type :=
| Ok (a : A)
| Raise (e : exn).

Arguments Ok {A} a.
Arguments Raise {A} e.

Notation "x |> f" := (f x) (at level 68, left associativity, only parsing).

(** The yaw difference of two consecutive attitude samples brought back by
    one turn ([g_sensor_app.py], lines 663-667 and 699-703). *)
Definition wrap_yaw_delta (delta_yaw : R) : R :=
  if Rgtb delta_yaw PI then delta_yaw - 2 * PI
  else if Rltb delta_yaw (- PI) then delta_yaw + 2 * PI
  else delta_yaw.

(** The weight of a fix of the given accuracy; the same expression in
    both variants ([g_sensor_app.py], line 616, and [log_viewer.py],
    line 877). *)
Definition gps_weight (accuracy : R) : R := 1.0 / (1.0 + accuracy / 10.0).

(** ** [g_sensor_app.py]: class [GPSINSFusion] *)

Module App.

Definition EARTH_RADIUS : R := 6378137.0.
Definition ACCURACY_THRESHOLD_GOOD : R := 15.0.
Definition ACCURACY_THRESHOLD_DEGRADE : R := 30.0.
Definition MEMORY_VELOCITY_DECAY : R := 0.98.
Definition MEMORY_MAX_DURATION : R := 60.0.

Record state : Type := mkstate {
  current_lat : option R;
  current_lon : option R;
  velocity_north : R;
  velocity_east : R;
  position_uncertainty : R;
  velocity_uncertainty : R;
  track : list (R * R);
  is_initialized : bool;
  last_yaw : option R;
  current_heading : R;
  memory_velocity_north : R;
  memory_velocity_east : R;
  memory_heading : R;
  memory_speed : R;
  is_memory_mode : bool;
  memory_mode_start_time : option R;
  last_good_gps_time : option R
}.

Definition set_current_lat (v : option R) (s : state) : state :=
  mkstate v (current_lon s) (velocity_north s) (velocity_east s)
    (position_uncertainty s) (velocity_uncertainty s) (track s)
    (is_initialized s) (last_yaw s) (current_heading s)
    (memory_velocity_north s) (memory_velocity_east s) (memory_heading s)
    (memory_speed s) (is_memory_mode s) (memory_mode_start_time s)
    (last_good_gps_time s).

Definition set_current_lon (v : option R) (s : state) : state :=
  mkstate (current_lat s) v (velocity_north s) (velocity_east s)
    (position_uncertainty s) (velocity_uncertainty s) (track s)
    (is_initialized s) (last_yaw s) (current_heading s)
    (memory_velocity_north s) (memory_velocity_east s) (memory_heading s)
    (memory_speed s) (is_memory_mode s) (memory_mode_start_time s)
    (last_good_gps_time s).

Definition set_velocity_north (v : R) (s : state) : state :=
  mkstate (current_lat s) (current_lon s) v (velocity_east s)
    (position_uncertainty s) (velocity_uncertainty s) (track s)
    (is_initialized s) (last_yaw s) (current_heading s)
    (memory_velocity_north s) (memory_velocity_east s) (memory_heading s)
    (memory_speed s) (is_memory_mode s) (memory_mode_start_time s)
    (last_good_gps_time s).

Definition set_velocity_east (v : R) (s : state) : state :=
  mkstate (current_lat s) (current_lon s) (velocity_north s) v
    (position_uncertainty s) (velocity_uncertainty s) (track s)
    (is_initialized s) (last_yaw s) (current_heading s)
    (memory_velocity_north s) (memory_velocity_east s) (memory_heading s)
    (memory_speed s) (is_memory_mode s) (memory_mode_start_time s)
    (last_good_gps_time s).

Definition set_position_uncertainty (v : R) (s : state) : state :=
  mkstate (current_lat s) (current_lon s) (velocity_north s)
    (velocity_east s) v (velocity_uncertainty s) (track s)
    (is_initialized s) (last_yaw s) (current_heading s)
    (memory_velocity_north s) (memory_velocity_east s) (memory_heading s)
    (memory_speed s) (is_memory_mode s) (memory_mode_start_time s)
    (last_good_gps_time s).

Definition set_velocity_uncertainty (v : R) (s : state) : state :=
  mkstate (current_lat s) (current_lon s) (velocity_north s)
    (velocity_east s) (position_uncertainty s) v (track s)
    (is_initialized s) (last_yaw s) (current_heading s)
    (memory_velocity_north s) (memory_velocity_east s) (memory_heading s)
    (memory_speed s) (is_memory_mode s) (memory_mode_start_time s)
    (last_good_gps_time s).

Definition set_track (v : list (R * R)) (s : state) : state :=
  mkstate (current_lat s) (current_lon s) (velocity_north s)
    (velocity_east s) (position_uncertainty s) (velocity_uncertainty s) v
    (is_initialized s) (last_yaw s) (current_heading s)
    (memory_velocity_north s) (memory_velocity_east s) (memory_heading s)
    (memory_speed s) (is_memory_mode s) (memory_mode_start_time s)
    (last_good_gps_time s).

Definition set_is_initialized (v : bool) (s : state) : state :=
  mkstate (current_lat s) (current_lon s) (velocity_north s)
    (velocity_east s) (position_uncertainty s) (velocity_uncertainty s)
    (track s) v (last_yaw s) (current_heading s) (memory_velocity_north s)
    (memory_velocity_east s) (memory_heading s) (memory_speed s)
    (is_memory_mode s) (memory_mode_start_time s) (last_good_gps_time s).

Definition set_last_yaw (v : option R) (s : state) : state :=
  mkstate (current_lat s) (current_lon s) (velocity_north s)
    (velocity_east s) (position_uncertainty s) (velocity_uncertainty s)
    (track s) (is_initialized s) v (current_heading s)
    (memory_velocity_north s) (memory_velocity_east s) (memory_heading s)
    (memory_speed s) (is_memory_mode s) (memory_mode_start_time s)
    (last_good_gps_time s).

Definition set_current_heading (v : R) (s : state) : state :=
  mkstate (current_lat s) (current_lon s) (velocity_north s)
    (velocity_east s) (position_uncertainty s) (velocity_uncertainty s)
    (track s) (is_initialized s) (last_yaw s) v (memory_velocity_north s)
    (memory_velocity_east s) (memory_heading s) (memory_speed s)
    (is_memory_mode s) (memory_mode_start_time s) (last_good_gps_time s).

Definition set_memory_velocity_north (v : R) (s : state) : state :=
  mkstate (current_lat s) (current_lon s) (velocity_north s)
    (velocity_east s) (position_uncertainty s) (velocity_uncertainty s)
    (track s) (is_initialized s) (last_yaw s) (current_heading s) v
    (memory_velocity_east s) (memory_heading s) (memory_speed s)
    (is_memory_mode s) (memory_mode_start_time s) (last_good_gps_time s).

Definition set_memory_velocity_east (v : R) (s : state) : state :=
  mkstate (current_lat s) (current_lon s) (velocity_north s)
    (velocity_east s) (position_uncertainty s) (velocity_uncertainty s)
    (track s) (is_initialized s) (last_yaw s) (current_heading s)
    (memory_velocity_north s) v (memory_heading s) (memory_speed s)
    (is_memory_mode s) (memory_mode_start_time s) (last_good_gps_time s).

Definition set_memory_heading (v : R) (s : state) : state :=
  mkstate (current_lat s) (current_lon s) (velocity_north s)
    (velocity_east s) (position_uncertainty s) (velocity_uncertainty s)
    (track s) (is_initialized s) (last_yaw s) (current_heading s)
    (memory_velocity_north s) (memory_velocity_east s) v (memory_speed s)
    (is_memory_mode s) (memory_mode_start_time s) (last_good_gps_time s).

Definition set_memory_speed (v : R) (s : state) : state :=
  mkstate (current_lat s) (current_lon s) (velocity_north s)
    (velocity_east s) (position_uncertainty s) (velocity_uncertainty s)
    (track s) (is_initialized s) (last_yaw s) (current_heading s)
    (memory_velocity_north s) (memory_velocity_east s) (memory_heading s) v
    (is_memory_mode s) (memory_mode_start_time s) (last_good_gps_time s).

Definition set_is_memory_mode (v : bool) (s : state) : state :=
  mkstate (current_lat s) (current_lon s) (velocity_north s)
    (velocity_east s) (position_uncertainty s) (velocity_uncertainty s)
    (track s) (is_initialized s) (last_yaw s) (current_heading s)
    (memory_velocity_north s) (memory_velocity_east s) (memory_heading s)
    (memory_speed s) v (memory_mode_start_time s) (last_good_gps_time s).

Definition set_memory_mode_start_time (v : option R) (s : state) : state :=
  mkstate (current_lat s) (current_lon s) (velocity_north s)
    (velocity_east s) (position_uncertainty s) (velocity_uncertainty s)
    (track s) (is_initialized s) (last_yaw s) (current_heading s)
    (memory_velocity_north s) (memory_velocity_east s) (memory_heading s)
    (memory_speed s) (is_memory_mode s) v (last_good_gps_time s).

Definition set_last_good_gps_time (v : option R) (s : state) : state :=
  mkstate (current_lat s) (current_lon s) (velocity_north s)
    (velocity_east s) (position_uncertainty s) (velocity_uncertainty s)
    (track s) (is_initialized s) (last_yaw s) (current_heading s)
    (memory_velocity_north s) (memory_velocity_east s) (memory_heading s)
    (memory_speed s) (is_memory_mode s) (memory_mode_start_time s) v.

(** [reset]; [__init__] is one call of it. *)
Definition reset : state :=
  {| current_lat := None; current_lon := None;
     velocity_north := 0; velocity_east := 0;
     position_uncertainty := 10; velocity_uncertainty := 1;
     track := []; is_initialized := false;
     last_yaw := None; current_heading := 0;
     memory_velocity_north := 0; memory_velocity_east := 0;
     memory_heading := 0; memory_speed := 0;
     is_memory_mode := false; memory_mode_start_time := None;
     last_good_gps_time := None |}.

Definition initialize (lat lon : R) (s : state) : state :=
  s |> set_current_lat (Some lat)
    |> set_current_lon (Some lon)
    |> set_track [(lat, lon)]
    |> set_is_initialized true.

(** Lines 592-605: a good fix is remembered and leaves memory mode. *)
Definition remember_good_fix (current_time speed course accuracy : R)
    (s : state) : state :=
  if Rgeb accuracy 0 && Rltb accuracy ACCURACY_THRESHOLD_GOOD then
    let s1 :=
      if Rgeb course 0 && Rgtb speed 0.3 then
        let course_rad := radians course in
        s |> set_memory_velocity_north (speed * cos course_rad)
          |> set_memory_velocity_east (speed * sin course_rad)
          |> set_memory_heading course_rad
          |> set_memory_speed speed
      else s in
    let s2 := s1 |> set_last_good_gps_time (Some current_time) in
    if is_memory_mode s2 then
      s2 |> set_is_memory_mode false |> set_memory_mode_start_time None
    else s2
  else s.

(** Lines 609-611: entering memory mode on a degraded fix. *)
Definition enter_memory_mode (current_time : R) (s : state) : state :=
  if negb (is_memory_mode s) && Rgtb (memory_speed s) 0.3 then
    s |> set_is_memory_mode true
      |> set_memory_mode_start_time (Some current_time)
  else s.

(** [update_gps(lat, lon, speed, course, accuracy)]; [now] is the value of
    [time.time()]. *)
Definition update_gps (s : state) (now lat lon speed course accuracy : R)
  : result state :=
  if negb (is_initialized s) then Ok (initialize lat lon s)
  else
    let current_time := now in
    let s1 := remember_good_fix current_time speed course accuracy s in
    if Rltb accuracy 0 || Rgeb accuracy ACCURACY_THRESHOLD_DEGRADE then
      Ok (enter_memory_mode current_time s1)
    else
      match current_lat s1, current_lon s1 with
      | Some clat, Some clon =>
          let gps_weight := gps_weight accuracy in
          let new_lat := (1 - gps_weight) * clat + gps_weight * lat in
          let new_lon := (1 - gps_weight) * clon + gps_weight * lon in
          let s2 :=
            s1 |> set_current_lat (Some new_lat)
               |> set_current_lon (Some new_lon) in
          let s3 :=
            if Rgeb course 0 && Rgtb speed 0.5 then
              let course_rad := radians course in
              let gps_vel_north := speed * cos course_rad in
              let gps_vel_east := speed * sin course_rad in
              let vel_weight := gps_weight * 0.5 in
              s2 |> set_velocity_north
                      ((1 - vel_weight) * velocity_north s2
                       + vel_weight * gps_vel_north)
                 |> set_velocity_east
                      ((1 - vel_weight) * velocity_east s2
                       + vel_weight * gps_vel_east)
                 |> set_current_heading course_rad
            else s2 in
          let s4 :=
            s3 |> set_position_uncertainty
                    (accuracy * 0.5 + position_uncertainty s3 * 0.5)
               |> set_velocity_uncertainty (velocity_uncertainty s3 * 0.9) in
          Ok (s4 |> set_track (track s4 ++ [(new_lat, new_lon)]))
      | _, _ => Raise TypeError
      end.

(** The dictionary returned by [update_ins]. *)
Record ins_result : Type := mkresult {
  r_lat : R;
  r_lon : R;
  r_speed : R;
  r_heading : R;
  r_mode : string;
  r_memory_elapsed : R
}.

(** Lines 646-653: [memory_elapsed] and [use_memory_track]. *)
Definition memory_elapsed (s : state) (current_time : R) : R :=
  if is_memory_mode s && truthy (memory_mode_start_time s) then
    match memory_mode_start_time s with
    | Some t0 => current_time - t0
    | None => 0.0
    end
  else 0.0.

Definition use_memory_track (s : state) (current_time : R) : bool :=
  is_memory_mode s && truthy (memory_mode_start_time s)
  && (Rltb (memory_elapsed s current_time) MEMORY_MAX_DURATION
      && Rgtb (memory_speed s) 0.3).

(** Lines 662-670 and 698-706: the yaw delta is added to [heading0] and
    the yaw is remembered.  The result is the new heading and the new
    [last_yaw]. *)
Definition integrate_yaw (last : option R) (heading0 yaw : R)
  : R * option R :=
  match last with
  | Some ly => (heading0 + wrap_yaw_delta (yaw - ly), Some yaw)
  | None => (heading0, Some yaw)
  end.

(** Lines 655-690: the memory-track branch up to the position update,
    which the two branches share word for word and [finish_ins] below
    performs.  The result is the state, the velocity to integrate
    ([vel_north], [vel_east]) and the local [speed]. *)
Definition memory_branch (s : state) (attitude : option triple)
  : state * R * R * R :=
  let s1 :=
    match attitude with
    | Some (_, _, yaw) =>
        let (h, ly) := integrate_yaw (last_yaw s) (memory_heading s) yaw in
        s |> set_memory_heading h |> set_last_yaw ly
    | None => s
    end in
  let s2 :=
    s1 |> set_memory_velocity_north
            (memory_velocity_north s1 * MEMORY_VELOCITY_DECAY)
       |> set_memory_velocity_east
            (memory_velocity_east s1 * MEMORY_VELOCITY_DECAY)
       |> set_memory_speed (memory_speed s1 * MEMORY_VELOCITY_DECAY) in
  let vel_north := memory_speed s2 * cos (memory_heading s2) in
  let vel_east := memory_speed s2 * sin (memory_heading s2) in
  (s2, vel_north, vel_east, memory_speed s2).

(** Lines 693-755: the inertial branch up to the position update; the
    velocity to integrate is the engine's own. *)
Definition ins_branch (s : state) (user_accel attitude : option triple)
    (dt : R) : state * R * R * R :=
  let s1 :=
    match attitude with
    | Some (_, _, yaw) =>
        let (h, ly) := integrate_yaw (last_yaw s) (current_heading s) yaw in
        s |> set_current_heading h |> set_last_yaw ly
    | None => s
    end in
  let s2 :=
    match user_accel, attitude with
    | Some (ax, ay, az), Some (roll, pitch, yaw) =>
        let cos_pitch := cos pitch in
        let sin_pitch := sin pitch in
        let cos_roll := cos roll in
        let ay_corrected := ay * cos_pitch - az * sin_pitch in
        let ax_corrected := ax * cos_roll in
        let heading := 3 * PI / 2 - yaw in
        let accel_forward := ay_corrected in
        let accel_right := ax_corrected in
        let accel_north :=
          accel_forward * cos heading - accel_right * sin heading in
        let accel_east :=
          accel_forward * sin heading + accel_right * cos heading in
        let accel_mag := sqrt (ax ^ 2 + ay ^ 2 + az ^ 2) in
        let is_stationary := Rltb accel_mag 0.08 in
        if is_stationary then
          s1 |> set_velocity_north (velocity_north s1 * 0.8)
             |> set_velocity_east (velocity_east s1 * 0.8)
        else
          let threshold := 0.05 in
          if Rgtb (Rabs ax) threshold || Rgtb (Rabs ay) threshold then
            s1 |> set_velocity_north
                    (velocity_north s1 + accel_north * 9.81 * dt)
               |> set_velocity_east
                    (velocity_east s1 + accel_east * 9.81 * dt)
          else s1
    | _, _ => s1
    end in
  let s3 :=
    s2 |> set_velocity_north (velocity_north s2 * 0.99)
       |> set_velocity_east (velocity_east s2 * 0.99) in
  let max_speed := 10.0 in
  let speed := sqrt (velocity_north s3 ^ 2 + velocity_east s3 ^ 2) in
  let s4 :=
    if Rgtb speed max_speed then
      let scale := max_speed / speed in
      s3 |> set_velocity_north (velocity_north s3 * scale)
         |> set_velocity_east (velocity_east s3 * scale)
    else s3 in
  (s4, velocity_north s4, velocity_east s4, speed).

(** Lines 682-688 and 758-764, then 766-780: the position update, which
    both branches end with, the uncertainties, the track and the returned
    dictionary.  [s0] is the state the call started from, [clat] its
    latitude, and [branch] what the branch taken has produced. *)
Definition finish_ins (s0 : state) (current_time clat : R)
    (use_memory : bool) (branch : state * R * R * R) (dt : R)
  : result (state * option ins_result) :=
  let '(s1, vel_north, vel_east, speed) := branch in
  let delta_lat := (vel_north * dt) / EARTH_RADIUS in
  let delta_lon :=
    (vel_east * dt) / (EARTH_RADIUS * cos (radians clat)) in
  match current_lon s1 with
  | None => Raise TypeError
  | Some clon =>
      let new_lat := clat + degrees delta_lat in
      let new_lon := clon + degrees delta_lon in
      let s2 :=
        s1 |> set_current_lat (Some new_lat)
           |> set_current_lon (Some new_lon)
           |> set_position_uncertainty (position_uncertainty s1 + 0.1 * dt)
           |> set_velocity_uncertainty
                (velocity_uncertainty s1 + 0.05 * dt) in
      let s3 := s2 |> set_track (track s2 ++ [(new_lat, new_lon)]) in
      Ok (s3,
          Some {| r_lat := new_lat;
                  r_lon := new_lon;
                  r_speed := speed;
                  r_heading :=
                    degrees (if negb use_memory then current_heading s3
                             else memory_heading s3);
                  r_mode :=
                    if use_memory then "memory_track"%string
                    else "ins"%string;
                  r_memory_elapsed :=
                    if use_memory then memory_elapsed s0 current_time
                    else 0.0 |})
  end.

(** [update_ins(user_accel, attitude, dt)]; [now] is the value of
    [time.time()].  The result is the new state and the returned
    dictionary, or [None]. *)
Definition update_ins (s : state) (now : R)
    (user_accel attitude : option triple) (dt : R)
  : result (state * option ins_result) :=
  if negb (is_initialized s) then Ok (s, None)
  else
    match current_lat s with
    | None => Ok (s, None)
    | Some clat =>
        let current_time := now in
        if use_memory_track s current_time then
          finish_ins s current_time clat true (memory_branch s attitude) dt
        else
          finish_ins s current_time clat false
            (ins_branch s user_accel attitude dt) dt
    end.

(** The engine's fields agree with its flag: once initialised the position
    is present, and before that the track is empty.  [reset] establishes
    it and every method keeps it. *)
Definition wf (s : state) : Prop :=
  if is_initialized s then
    current_lat s <> None /\ current_lon s <> None
  else track s = [].

(** What a branch of [update_ins] leaves alone. *)
Definition untouched (s s1 : state) : Prop :=
  current_lat s1 = current_lat s /\ current_lon s1 = current_lon s
  /\ is_initialized s1 = is_initialized s /\ track s1 = track s
  /\ position_uncertainty s1 = position_uncertainty s
  /\ velocity_uncertainty s1 = velocity_uncertainty s.

(** What the engine estimates: position, velocity, heading, the two
    uncertainties and the track. *)
Definition estimate (s : state)
  : option R * option R * R * R * R * R * R * list (R * R) :=
  (current_lat s, current_lon s, velocity_north s, velocity_east s,
   current_heading s, position_uncertainty s, velocity_uncertainty s,
   track s).

(** The state after memory mode was entered at [current_time]. *)
Definition in_memory_mode_since (current_time : R) (s : state) : state :=
  s |> set_is_memory_mode true
    |> set_memory_mode_start_time (Some current_time).

End App.

(** ** [log_viewer.py]: class [GPSINSFusion] *)

Module Viewer.

Definition EARTH_RADIUS : R := 6378137.0.
Definition ACCURACY_THRESHOLD_GOOD : R := 15.0.
Definition ACCURACY_THRESHOLD_DEGRADE : R := 30.0.
Definition MEMORY_VELOCITY_DECAY : R := 0.98.
Definition MEMORY_MAX_DURATION : R := 60.0.

Record state : Type := mkstate {
  current_lat : R;
  current_lon : R;
  velocity_north : R;
  velocity_east : R;
  position_uncertainty : R;
  velocity_uncertainty : R;
  last_gps_lat : R;
  last_gps_lon : R;
  last_gps_time : option R;
  memory_velocity_north : R;
  memory_velocity_east : R;
  memory_heading : R;
  memory_speed : R;
  is_memory_mode : bool;
  memory_mode_start_time : option R;
  last_good_gps_time : option R;
  track : list (R * R * string)
}.

Definition set_current_lat (v : R) (s : state) : state :=
  mkstate v (current_lon s) (velocity_north s) (velocity_east s)
    (position_uncertainty s) (velocity_uncertainty s) (last_gps_lat s)
    (last_gps_lon s) (last_gps_time s) (memory_velocity_north s)
    (memory_velocity_east s) (memory_heading s) (memory_speed s)
    (is_memory_mode s) (memory_mode_start_time s) (last_good_gps_time s)
    (track s).

Definition set_current_lon (v : R) (s : state) : state :=
  mkstate (current_lat s) v (velocity_north s) (velocity_east s)
    (position_uncertainty s) (velocity_uncertainty s) (last_gps_lat s)
    (last_gps_lon s) (last_gps_time s) (memory_velocity_north s)
    (memory_velocity_east s) (memory_heading s) (memory_speed s)
    (is_memory_mode s) (memory_mode_start_time s) (last_good_gps_time s)
    (track s).

Definition set_velocity_north (v : R) (s : state) : state :=
  mkstate (current_lat s) (current_lon s) v (velocity_east s)
    (position_uncertainty s) (velocity_uncertainty s) (last_gps_lat s)
    (last_gps_lon s) (last_gps_time s) (memory_velocity_north s)
    (memory_velocity_east s) (memory_heading s) (memory_speed s)
    (is_memory_mode s) (memory_mode_start_time s) (last_good_gps_time s)
    (track s).

Definition set_velocity_east (v : R) (s : state) : state :=
  mkstate (current_lat s) (current_lon s) (velocity_north s) v
    (position_uncertainty s) (velocity_uncertainty s) (last_gps_lat s)
    (last_gps_lon s) (last_gps_time s) (memory_velocity_north s)
    (memory_velocity_east s) (memory_heading s) (memory_speed s)
    (is_memory_mode s) (memory_mode_start_time s) (last_good_gps_time s)
    (track s).

Definition set_position_uncertainty (v : R) (s : state) : state :=
  mkstate (current_lat s) (current_lon s) (velocity_north s)
    (velocity_east s) v (velocity_uncertainty s) (last_gps_lat s)
    (last_gps_lon s) (last_gps_time s) (memory_velocity_north s)
    (memory_velocity_east s) (memory_heading s) (memory_speed s)
    (is_memory_mode s) (memory_mode_start_time s) (last_good_gps_time s)
    (track s).

Definition set_velocity_uncertainty (v : R) (s : state) : state :=
  mkstate (current_lat s) (current_lon s) (velocity_north s)
    (velocity_east s) (position_uncertainty s) v (last_gps_lat s)
    (last_gps_lon s) (last_gps_time s) (memory_velocity_north s)
    (memory_velocity_east s) (memory_heading s) (memory_speed s)
    (is_memory_mode s) (memory_mode_start_time s) (last_good_gps_time s)
    (track s).

Definition set_last_gps_lat (v : R) (s : state) : state :=
  mkstate (current_lat s) (current_lon s) (velocity_north s)
    (velocity_east s) (position_uncertainty s) (velocity_uncertainty s) v
    (last_gps_lon s) (last_gps_time s) (memory_velocity_north s)
    (memory_velocity_east s) (memory_heading s) (memory_speed s)
    (is_memory_mode s) (memory_mode_start_time s) (last_good_gps_time s)
    (track s).

Definition set_last_gps_lon (v : R) (s : state) : state :=
  mkstate (current_lat s) (current_lon s) (velocity_north s)
    (velocity_east s) (position_uncertainty s) (velocity_uncertainty s)
    (last_gps_lat s) v (last_gps_time s) (memory_velocity_north s)
    (memory_velocity_east s) (memory_heading s) (memory_speed s)
    (is_memory_mode s) (memory_mode_start_time s) (last_good_gps_time s)
    (track s).

Definition set_last_gps_time (v : option R) (s : state) : state :=
  mkstate (current_lat s) (current_lon s) (velocity_north s)
    (velocity_east s) (position_uncertainty s) (velocity_uncertainty s)
    (last_gps_lat s) (last_gps_lon s) v (memory_velocity_north s)
    (memory_velocity_east s) (memory_heading s) (memory_speed s)
    (is_memory_mode s) (memory_mode_start_time s) (last_good_gps_time s)
    (track s).

Definition set_memory_velocity_north (v : R) (s : state) : state :=
  mkstate (current_lat s) (current_lon s) (velocity_north s)
    (velocity_east s) (position_uncertainty s) (velocity_uncertainty s)
    (last_gps_lat s) (last_gps_lon s) (last_gps_time s) v
    (memory_velocity_east s) (memory_heading s) (memory_speed s)
    (is_memory_mode s) (memory_mode_start_time s) (last_good_gps_time s)
    (track s).

Definition set_memory_velocity_east (v : R) (s : state) : state :=
  mkstate (current_lat s) (current_lon s) (velocity_north s)
    (velocity_east s) (position_uncertainty s) (velocity_uncertainty s)
    (last_gps_lat s) (last_gps_lon s) (last_gps_time s)
    (memory_velocity_north s) v (memory_heading s) (memory_speed s)
    (is_memory_mode s) (memory_mode_start_time s) (last_good_gps_time s)
    (track s).

Definition set_memory_heading (v : R) (s : state) : state :=
  mkstate (current_lat s) (current_lon s) (velocity_north s)
    (velocity_east s) (position_uncertainty s) (velocity_uncertainty s)
    (last_gps_lat s) (last_gps_lon s) (last_gps_time s)
    (memory_velocity_north s) (memory_velocity_east s) v (memory_speed s)
    (is_memory_mode s) (memory_mode_start_time s) (last_good_gps_time s)
    (track s).

Definition set_memory_speed (v : R) (s : state) : state :=
  mkstate (current_lat s) (current_lon s) (velocity_north s)
    (velocity_east s) (position_uncertainty s) (velocity_uncertainty s)
    (last_gps_lat s) (last_gps_lon s) (last_gps_time s)
    (memory_velocity_north s) (memory_velocity_east s) (memory_heading s) v
    (is_memory_mode s) (memory_mode_start_time s) (last_good_gps_time s)
    (track s).

Definition set_is_memory_mode (v : bool) (s : state) : state :=
  mkstate (current_lat s) (current_lon s) (velocity_north s)
    (velocity_east s) (position_uncertainty s) (velocity_uncertainty s)
    (last_gps_lat s) (last_gps_lon s) (last_gps_time s)
    (memory_velocity_north s) (memory_velocity_east s) (memory_heading s)
    (memory_speed s) v (memory_mode_start_time s) (last_good_gps_time s)
    (track s).

Definition set_memory_mode_start_time (v : option R) (s : state) : state :=
  mkstate (current_lat s) (current_lon s) (velocity_north s)
    (velocity_east s) (position_uncertainty s) (velocity_uncertainty s)
    (last_gps_lat s) (last_gps_lon s) (last_gps_time s)
    (memory_velocity_north s) (memory_velocity_east s) (memory_heading s)
    (memory_speed s) (is_memory_mode s) v (last_good_gps_time s) (track s).

Definition set_last_good_gps_time (v : option R) (s : state) : state :=
  mkstate (current_lat s) (current_lon s) (velocity_north s)
    (velocity_east s) (position_uncertainty s) (velocity_uncertainty s)
    (last_gps_lat s) (last_gps_lon s) (last_gps_time s)
    (memory_velocity_north s) (memory_velocity_east s) (memory_heading s)
    (memory_speed s) (is_memory_mode s) (memory_mode_start_time s) v
    (track s).

Definition set_track (v : list (R * R * string)) (s : state) : state :=
  mkstate (current_lat s) (current_lon s) (velocity_north s)
    (velocity_east s) (position_uncertainty s) (velocity_uncertainty s)
    (last_gps_lat s) (last_gps_lon s) (last_gps_time s)
    (memory_velocity_north s) (memory_velocity_east s) (memory_heading s)
    (memory_speed s) (is_memory_mode s) (memory_mode_start_time s)
    (last_good_gps_time s) v.

(** [__init__(start_lat, start_lon)]. *)
Definition init (start_lat start_lon : R) : state :=
  {| current_lat := start_lat; current_lon := start_lon;
     velocity_north := 0; velocity_east := 0;
     position_uncertainty := 10; velocity_uncertainty := 1;
     last_gps_lat := start_lat; last_gps_lon := start_lon;
     last_gps_time := None;
     memory_velocity_north := 0; memory_velocity_east := 0;
     memory_heading := 0; memory_speed := 0;
     is_memory_mode := false; memory_mode_start_time := None;
     last_good_gps_time := None;
     track := [(start_lat, start_lon, "gps"%string)] |}.

(** Lines 853-866: a good fix is remembered and leaves memory mode. *)
Definition remember_good_fix (timestamp : option R)
    (speed course accuracy : R) (s : state) : state :=
  if Rgeb accuracy 0 && Rltb accuracy ACCURACY_THRESHOLD_GOOD then
    let s1 :=
      if Rgeb course 0 && Rgtb speed 0.3 then
        let course_rad := radians course in
        s |> set_memory_velocity_north (speed * cos course_rad)
          |> set_memory_velocity_east (speed * sin course_rad)
          |> set_memory_heading course_rad
          |> set_memory_speed speed
      else s in
    let s2 := s1 |> set_last_good_gps_time timestamp in
    if is_memory_mode s2 then
      s2 |> set_is_memory_mode false |> set_memory_mode_start_time None
    else s2
  else s.

(** Lines 870-872: entering memory mode on a degraded fix. *)
Definition enter_memory_mode (timestamp : option R) (s : state) : state :=
  if negb (is_memory_mode s) && Rgtb (memory_speed s) 0.3 then
    s |> set_is_memory_mode true
      |> set_memory_mode_start_time timestamp
  else s.

(** [update_gps(lat, lon, speed, course, accuracy, timestamp)]. *)
Definition update_gps (s : state) (lat lon speed course accuracy : R)
    (timestamp : option R) : state :=
  let s1 := remember_good_fix timestamp speed course accuracy s in
  if Rltb accuracy 0 || Rgeb accuracy ACCURACY_THRESHOLD_DEGRADE then
    enter_memory_mode timestamp s1
  else
    let gps_weight := gps_weight accuracy in
    let s2 :=
      s1 |> set_current_lat
              ((1 - gps_weight) * current_lat s1 + gps_weight * lat)
         |> set_current_lon
              ((1 - gps_weight) * current_lon s1 + gps_weight * lon) in
    let s3 :=
      if Rgeb speed 0 && Rgeb course 0 then
        let course_rad := radians course in
        let gps_vel_north := speed * cos course_rad in
        let gps_vel_east := speed * sin course_rad in
        let vel_weight := gps_weight * 0.8 in
        s2 |> set_velocity_north
                ((1 - vel_weight) * velocity_north s2
                 + vel_weight * gps_vel_north)
           |> set_velocity_east
                ((1 - vel_weight) * velocity_east s2
                 + vel_weight * gps_vel_east)
      else s2 in
    let s4 :=
      s3 |> set_position_uncertainty accuracy
         |> set_velocity_uncertainty (accuracy / 10.0)
         |> set_last_gps_lat lat
         |> set_last_gps_lon lon
         |> set_last_gps_time timestamp in
    s4 |> set_track
            (track s4 ++ [(current_lat s4, current_lon s4, "fused"%string)]).

(** Lines 915-922: [use_memory_track]. *)
Definition use_memory_track (s : state) (timestamp : option R) : bool :=
  if is_memory_mode s && truthy (memory_mode_start_time s)
     && truthy timestamp
  then
    match timestamp, memory_mode_start_time s with
    | Some t, Some t0 =>
        let memory_elapsed := t - t0 in
        Rltb memory_elapsed MEMORY_MAX_DURATION && Rgtb (memory_speed s) 0.3
    | _, _ => false
    end
  else false.

(** Lines 924-953: the memory-track branch. *)
Definition memory_branch (s : state) (attitude : option triple) (dt : R)
  : state :=
  let s1 :=
    match attitude with
    | Some (cur_roll, cur_pitch, yaw) =>
        let heading := 3 * PI / 2 - yaw in
        s |> set_memory_heading heading
    | None => s
    end in
  let s2 :=
    s1 |> set_memory_velocity_north
            (memory_velocity_north s1 * MEMORY_VELOCITY_DECAY)
       |> set_memory_velocity_east
            (memory_velocity_east s1 * MEMORY_VELOCITY_DECAY)
       |> set_memory_speed (memory_speed s1 * MEMORY_VELOCITY_DECAY) in
  let vel_north := memory_speed s2 * cos (memory_heading s2) in
  let vel_east := memory_speed s2 * sin (memory_heading s2) in
  let delta_lat := (vel_north * dt) / EARTH_RADIUS in
  let delta_lon :=
    (vel_east * dt) / (EARTH_RADIUS * cos (radians (current_lat s2))) in
  s2 |> set_current_lat (current_lat s2 + degrees delta_lat)
     |> set_current_lon (current_lon s2 + degrees delta_lon).

(** Lines 955-1016: the inertial branch. *)
Definition ins_branch (s : state) (user_accel attitude : option triple)
    (dt : R) : state :=
  let '(cur_roll, cur_pitch, heading) :=
    match attitude with
    | Some (roll, pitch, yaw) => (roll, pitch, 3 * PI / 2 - yaw)
    | None => (0.0, 0.0, 0.0)
    end in
  let s1 :=
    match user_accel with
    | Some (ax, ay, az) =>
        let cos_pitch := cos cur_pitch in
        let sin_pitch := sin cur_pitch in
        let cos_roll := cos cur_roll in
        let ay_corrected := ay * cos_pitch - az * sin_pitch in
        let ax_corrected := ax * cos_roll in
        let accel_forward := ay_corrected in
        let accel_right := ax_corrected in
        let accel_north :=
          accel_forward * cos heading - accel_right * sin heading in
        let accel_east :=
          accel_forward * sin heading + accel_right * cos heading in
        let accel_mag := sqrt (ax * ax + ay * ay + az * az) in
        if Rltb (Rabs accel_mag) 0.03 then
          s |> set_velocity_north (velocity_north s * 0.8)
            |> set_velocity_east (velocity_east s * 0.8)
        else
          let move_threshold := 0.05 in
          if Rgtb (Rabs accel_forward) move_threshold
             || Rgtb (Rabs accel_right) move_threshold
          then
            s |> set_velocity_north
                   (velocity_north s + accel_north * 9.81 * dt)
              |> set_velocity_east
                   (velocity_east s + accel_east * 9.81 * dt)
          else s
    | None => s
    end in
  let decay := 0.99 in
  let s2 :=
    s1 |> set_velocity_north (velocity_north s1 * decay)
       |> set_velocity_east (velocity_east s1 * decay) in
  let max_speed := 10.0 in
  let speed := sqrt (velocity_north s2 ^ 2 + velocity_east s2 ^ 2) in
  let s3 :=
    if Rgtb speed max_speed then
      let scale := max_speed / speed in
      s2 |> set_velocity_north (velocity_north s2 * scale)
         |> set_velocity_east (velocity_east s2 * scale)
    else s2 in
  let delta_lat := (velocity_north s3 * dt) / EARTH_RADIUS in
  let delta_lon :=
    (velocity_east s3 * dt)
    / (EARTH_RADIUS * cos (radians (current_lat s3))) in
  s3 |> set_current_lat (current_lat s3 + degrees delta_lat)
     |> set_current_lon (current_lon s3 + degrees delta_lon).

(** Lines 1018-1022: the end of [update_ins], common to both branches. *)
Definition finish_ins (track_type : string) (dt : R) (s : state) : state :=
  let s1 :=
    s |> set_position_uncertainty (position_uncertainty s + 0.5 * dt)
      |> set_velocity_uncertainty (velocity_uncertainty s + 0.1 * dt) in
  s1 |> set_track (track s1 ++ [(current_lat s1, current_lon s1, track_type)]).

(** [update_ins(user_accel, attitude, dt, timestamp=None)]. *)
Definition update_ins (s : state) (user_accel attitude : option triple)
    (dt : R) (timestamp : option R) : state :=
  if Rleb dt 0 then s
  else
    if use_memory_track s timestamp then
      finish_ins "memory" dt (memory_branch s attitude dt)
    else
      finish_ins "ins" dt (ins_branch s user_accel attitude dt).

(** What the engine estimates: position, velocity, the two uncertainties
    and the track (this variant keeps no heading of its own). *)
Definition estimate (s : state)
  : R * R * R * R * R * R * list (R * R * string) :=
  (current_lat s, current_lon s, velocity_north s, velocity_east s,
   position_uncertainty s, velocity_uncertainty s, track s).

(** The state after memory mode was entered at [timestamp]. *)
Definition in_memory_mode_since (timestamp : option R) (s : state)
  : state :=
  s |> set_is_memory_mode true
    |> set_memory_mode_start_time timestamp.

End Viewer.

(** ** Observations and example states *)

(** [new] is [old] followed by [n] more entries. *)
Definition appended {A : Type} (old new : list A) (n : nat) : Prop :=
  exists l, new = old ++ l /\ List.length l = n.

(** The application's engine right after its first fix, at (35, 139). *)
Definition app_first_fix : App.state :=
  App.reset |> App.initialize 35 139.

(** Example engines: both have had a first fix at (35, 139) and remember a
    speed of 5 m/s. *)
Definition app_moving : App.state :=
  App.reset |> App.initialize 35 139 |> App.set_memory_speed 5.

Definition viewer_moving : Viewer.state :=
  Viewer.init 35 139 |> Viewer.set_memory_speed 5.

(** An engine in memory mode since time 100 whose remembered speed has
    decayed to 0.2 m/s. *)
Definition app_decayed : App.state :=
  App.reset |> App.initialize 35 139 |> App.set_memory_speed 0.2
    |> App.in_memory_mode_since 100.

Definition viewer_decayed : Viewer.state :=
  Viewer.init 35 139 |> Viewer.set_memory_speed 0.2
    |> Viewer.in_memory_mode_since (Some 100).

(** An initialised engine whose last yaw reading is 3.13 rad. *)
Definition app_yaw_313 : App.state :=
  app_first_fix |> App.set_last_yaw (Some 3.13).

(** The object anchored by a first call with GPS altitude 100 and
    barometer reading 2. *)
Definition altitude_anchored_100 : AltitudeFusion.state :=
  fst (AltitudeFusion.update AltitudeFusion.init
         (Some 100) None (Some 2) None 0.1).

(** ** Sequences of calls on one engine *)

Module AppRun.

(** One call on the application's engine, with the value [time.time()]
    has when it is made. *)
Inductive event : Type :=
| Fix (now lat lon speed course accuracy : R)
| Ins (now : R) (user_accel attitude : option triple) (dt : R).

Definition step (s : App.state) (e : event) : result App.state :=
  match e with
  | Fix now lat lon speed course accuracy =>
      App.update_gps s now lat lon speed course accuracy
  | Ins now user_accel attitude dt =>
      match App.update_ins s now user_accel attitude dt with
      | Ok (s', _) => Ok s'
      | Raise x => Raise x
      end
  end.

(** The calls are made in order; an exception ends the run. *)
Fixpoint run (s : App.state) (es : list event) : result App.state :=
  match es with
  | [] => Ok s
  | e :: es' =>
      match step s e with
      | Ok s' => run s' es'
      | Raise x => Raise x
      end
  end.

(** The last entry of the track is the current position. *)
Definition position_recorded (s : App.state) : Prop :=
  App.is_initialized s = true ->
  exists la lo l,
    App.current_lat s = Some la /\ App.current_lon s = Some lo
    /\ App.track s = l ++ [(la, lo)].

End AppRun.

Module ViewerRun.

Inductive event : Type :=
| Fix (lat lon speed course accuracy : R) (timestamp : option R)
| Ins (user_accel attitude : option triple) (dt : R)
      (timestamp : option R).

Definition step (s : Viewer.state) (e : event) : Viewer.state :=
  match e with
  | Fix lat lon speed course accuracy timestamp =>
      Viewer.update_gps s lat lon speed course accuracy timestamp
  | Ins user_accel attitude dt timestamp =>
      Viewer.update_ins s user_accel attitude dt timestamp
  end.

Definition run (s : Viewer.state) (es : list event) : Viewer.state :=
  fold_left step es s.

(** The last entry of the track is the current position. *)
Definition position_recorded (s : Viewer.state) : Prop :=
  exists l tag,
    Viewer.track s
    = l ++ [(Viewer.current_lat s, Viewer.current_lon s, tag)].

(** [get_track]: the positions of the track, without the tags. *)
Definition get_track (s : Viewer.state) : list (R * R) :=
  map (fun e => let '(lat, lon, _) := e in (lat, lon)) (Viewer.track s).

(** [get_current_position], [get_speed] and [get_uncertainty]. *)
Definition get_current_position (s : Viewer.state) : R * R :=
  (Viewer.current_lat s, Viewer.current_lon s).


Definition get_uncertainty (s : Viewer.state) : R :=
  Viewer.position_uncertainty s.

End ViewerRun.

(** ** [log_viewer.py]: the rest of [AltitudeFusion] *)

Module AltitudeApi.

(** [reset]. *)
Definition reset (s : AltitudeFusion.state) : AltitudeFusion.state :=
  {| AltitudeFusion.gps_altitude := None;
     AltitudeFusion.baro_reference := None;
     AltitudeFusion.fused_altitude := None;
     AltitudeFusion.vertical_velocity := 0.0 |}.

(** [get_vertical_velocity]. *)
Definition get_vertical_velocity (s : AltitudeFusion.state) : R :=
  AltitudeFusion.vertical_velocity s.

End AltitudeApi.

(** ** [g_sensor_app.py]: class [DeadReckoning] *)

Module DeadReckoning.

Definition EARTH_RADIUS : R := 6378137.0.

(** The attributes of the object.  [last_update_time] is created by
    [start_dead_reckoning] only: [None] stands for the attribute that does
    not exist yet (nothing reads it). *)
Record state : Type := mkstate {
  last_gps_lat : option R;
  last_gps_lon : option R;
  last_gps_speed : R;
  last_gps_course : R;
  last_gps_time : option R;
  current_lat : option R;
  current_lon : option R;
  velocity_north : R;
  velocity_east : R;
  last_yaw : option R;
  current_heading : R;
  is_active : bool;
  dr_start_time : option R;
  last_update_time : option R
}.

Definition set_current_lat (v : option R) (s : state) : state :=
  {| last_gps_lat := last_gps_lat s;
     last_gps_lon := last_gps_lon s;
     last_gps_speed := last_gps_speed s;
     last_gps_course := last_gps_course s;
     last_gps_time := last_gps_time s;
     current_lat := v;
     current_lon := current_lon s;
     velocity_north := velocity_north s;
     velocity_east := velocity_east s;
     last_yaw := last_yaw s;
     current_heading := current_heading s;
     is_active := is_active s;
     dr_start_time := dr_start_time s;
     last_update_time := last_update_time s |}.

Definition set_current_lon (v : option R) (s : state) : state :=
  {| last_gps_lat := last_gps_lat s;
     last_gps_lon := last_gps_lon s;
     last_gps_speed := last_gps_speed s;
     last_gps_course := last_gps_course s;
     last_gps_time := last_gps_time s;
     current_lat := current_lat s;
     current_lon := v;
     velocity_north := velocity_north s;
     velocity_east := velocity_east s;
     last_yaw := last_yaw s;
     current_heading := current_heading s;
     is_active := is_active s;
     dr_start_time := dr_start_time s;
     last_update_time := last_update_time s |}.

Definition set_velocity_north (v : R) (s : state) : state :=
  {| last_gps_lat := last_gps_lat s;
     last_gps_lon := last_gps_lon s;
     last_gps_speed := last_gps_speed s;
     last_gps_course := last_gps_course s;
     last_gps_time := last_gps_time s;
     current_lat := current_lat s;
     current_lon := current_lon s;
     velocity_north := v;
     velocity_east := velocity_east s;
     last_yaw := last_yaw s;
     current_heading := current_heading s;
     is_active := is_active s;
     dr_start_time := dr_start_time s;
     last_update_time := last_update_time s |}.

Definition set_velocity_east (v : R) (s : state) : state :=
  {| last_gps_lat := last_gps_lat s;
     last_gps_lon := last_gps_lon s;
     last_gps_speed := last_gps_speed s;
     last_gps_course := last_gps_course s;
     last_gps_time := last_gps_time s;
     current_lat := current_lat s;
     current_lon := current_lon s;
     velocity_north := velocity_north s;
     velocity_east := v;
     last_yaw := last_yaw s;
     current_heading := current_heading s;
     is_active := is_active s;
     dr_start_time := dr_start_time s;
     last_update_time := last_update_time s |}.

Definition set_last_yaw (v : option R) (s : state) : state :=
  {| last_gps_lat := last_gps_lat s;
     last_gps_lon := last_gps_lon s;
     last_gps_speed := last_gps_speed s;
     last_gps_course := last_gps_course s;
     last_gps_time := last_gps_time s;
     current_lat := current_lat s;
     current_lon := current_lon s;
     velocity_north := velocity_north s;
     velocity_east := velocity_east s;
     last_yaw := v;
     current_heading := current_heading s;
     is_active := is_active s;
     dr_start_time := dr_start_time s;
     last_update_time := last_update_time s |}.

Definition set_current_heading (v : R) (s : state) : state :=
  {| last_gps_lat := last_gps_lat s;
     last_gps_lon := last_gps_lon s;
     last_gps_speed := last_gps_speed s;
     last_gps_course := last_gps_course s;
     last_gps_time := last_gps_time s;
     current_lat := current_lat s;
     current_lon := current_lon s;
     velocity_north := velocity_north s;
     velocity_east := velocity_east s;
     last_yaw := last_yaw s;
     current_heading := v;
     is_active := is_active s;
     dr_start_time := dr_start_time s;
     last_update_time := last_update_time s |}.

Definition set_is_active (v : bool) (s : state) : state :=
  {| last_gps_lat := last_gps_lat s;
     last_gps_lon := last_gps_lon s;
     last_gps_speed := last_gps_speed s;
     last_gps_course := last_gps_course s;
     last_gps_time := last_gps_time s;
     current_lat := current_lat s;
     current_lon := current_lon s;
     velocity_north := velocity_north s;
     velocity_east := velocity_east s;
     last_yaw := last_yaw s;
     current_heading := current_heading s;
     is_active := v;
     dr_start_time := dr_start_time s;
     last_update_time := last_update_time s |}.

Definition set_dr_start_time (v : option R) (s : state) : state :=
  {| last_gps_lat := last_gps_lat s;
     last_gps_lon := last_gps_lon s;
     last_gps_speed := last_gps_speed s;
     last_gps_course := last_gps_course s;
     last_gps_time := last_gps_time s;
     current_lat := current_lat s;
     current_lon := current_lon s;
     velocity_north := velocity_north s;
     velocity_east := velocity_east s;
     last_yaw := last_yaw s;
     current_heading := current_heading s;
     is_active := is_active s;
     dr_start_time := v;
     last_update_time := last_update_time s |}.

Definition set_last_update_time (v : option R) (s : state) : state :=
  {| last_gps_lat := last_gps_lat s;
     last_gps_lon := last_gps_lon s;
     last_gps_speed := last_gps_speed s;
     last_gps_course := last_gps_course s;
     last_gps_time := last_gps_time s;
     current_lat := current_lat s;
     current_lon := current_lon s;
     velocity_north := velocity_north s;
     velocity_east := velocity_east s;
     last_yaw := last_yaw s;
     current_heading := current_heading s;
     is_active := is_active s;
     dr_start_time := dr_start_time s;
     last_update_time := v |}.

(** [reset()]: every attribute of [__init__]; [last_update_time] is not
    among them and stays as it is. *)
Definition reset (s : state) : state :=
  {| last_gps_lat := None;
     last_gps_lon := None;
     last_gps_speed := 0.0;
     last_gps_course := 0.0;
     last_gps_time := None;
     current_lat := None;
     current_lon := None;
     velocity_north := 0.0;
     velocity_east := 0.0;
     last_yaw := None;
     current_heading := 0.0;
     is_active := false;
     dr_start_time := None;
     last_update_time := last_update_time s |}.

(** [DeadReckoning()]: [__init__] calls [reset] on an object without
    attributes. *)
Definition init : state :=
  {| last_gps_lat := None;
     last_gps_lon := None;
     last_gps_speed := 0.0;
     last_gps_course := 0.0;
     last_gps_time := None;
     current_lat := None;
     current_lon := None;
     velocity_north := 0.0;
     velocity_east := 0.0;
     last_yaw := None;
     current_heading := 0.0;
     is_active := false;
     dr_start_time := None;
     last_update_time := None |}.

(** [update_gps(lat, lon, speed, course, timestamp)]. *)
Definition update_gps (s : state) (lat lon speed course : R)
    (timestamp : option R) : state :=
  let course_rad := radians course in
  {| last_gps_lat := Some lat;
     last_gps_lon := Some lon;
     last_gps_speed := speed;
     last_gps_course := course;
     last_gps_time := timestamp;
     current_lat := Some lat;
     current_lon := Some lon;
     velocity_north := speed * cos course_rad;
     velocity_east := speed * sin course_rad;
     last_yaw := last_yaw s;
     current_heading := course_rad;
     is_active := false;
     dr_start_time := None;
     last_update_time := last_update_time s |}.

(** [start_dead_reckoning()]; [now1] and [now2] are the values of its two
    calls of [time.time()].  The result is the new state and the returned
    boolean. *)
Definition start_dead_reckoning (s : state) (now1 now2 : R)
  : state * bool :=
  match last_gps_lat s with
  | None => (s, false)
  | Some _ =>
      (s |> set_is_active true
         |> set_dr_start_time (Some now1)
         |> set_last_update_time (Some now2),
       true)
  end.

(** The ['debug'] entry of the returned dictionary. *)
Record dr_debug : Type := mkdebug {
  d_velocity_north : R;
  d_velocity_east : R;
  d_delta_yaw : R;
  d_accel_north : R;
  d_accel_east : R;
  d_delta_lat : R;
  d_delta_lon : R
}.

(** The dictionary returned by [update_with_sensors]. *)
Record dr_result : Type := mkresult {
  r_lat : R;
  r_lon : R;
  r_speed : R;
  r_heading : R;
  r_elapsed : R;
  r_debug : dr_debug
}.

(** Lines 848-863: the heading follows the yaw.  The result is the state
    and the local [delta_yaw]. *)
Definition integrate_attitude (s : state) (attitude : option triple)
  : state * R :=
  match attitude with
  | Some (roll, pitch, yaw) =>
      let '(s1, delta_yaw) :=
        match last_yaw s with
        | Some ly =>
            let delta_yaw := wrap_yaw_delta (yaw - ly) in
            (s |> set_current_heading (current_heading s + delta_yaw),
             delta_yaw)
        | None => (s, 0.0)
        end in
      (s1 |> set_last_yaw (Some yaw), delta_yaw)
  | None => (s, 0.0)
  end.

(** Lines 865-882: the acceleration is turned into the north/east frame
    and integrated when one of its horizontal components exceeds the
    threshold.  The result is the state and the locals [accel_north] and
    [accel_east]. *)
Definition integrate_accel (s : state) (user_accel : option triple)
    (dt : R) : state * R * R :=
  match user_accel with
  | Some (ax, ay, az) =>
      let accel_forward := ay in
      let accel_right := ax in
      let accel_north :=
        accel_forward * cos (current_heading s)
        - accel_right * sin (current_heading s) in
      let accel_east :=
        accel_forward * sin (current_heading s)
        + accel_right * cos (current_heading s) in
      let threshold := 0.05 in
      if Rgtb (Rabs ax) threshold || Rgtb (Rabs ay) threshold then
        (s |> set_velocity_north
                (velocity_north s + accel_north * 9.81 * dt)
           |> set_velocity_east
                (velocity_east s + accel_east * 9.81 * dt),
         accel_north, accel_east)
      else (s, accel_north, accel_east)
  | None => (s, 0.0, 0.0)
  end.

(** The acceleration sample is not integrated: there is none, or the
    threshold test of line 880 fails. *)
Definition not_integrated (user_accel : option triple) : bool :=
  match user_accel with
  | Some (ax, ay, az) =>
      negb (Rgtb (Rabs ax) 0.05 || Rgtb (Rabs ay) 0.05)
  | None => true
  end.

(** The velocity a step integrates: what the attitude and the
    acceleration leave, before the decay. *)
Definition driven_velocity (s : state) (user_accel attitude : option triple)
    (dt : R) : R * R :=
  let s2 :=
    fst (fst (integrate_accel (fst (integrate_attitude s attitude))
                user_accel dt)) in
  (velocity_north s2, velocity_east s2).

(** [update_with_sensors(user_accel, attitude, dt)]; [now] is the value
    of [time.time()] when the dictionary is built.  The result is the new
    state and the returned dictionary, or [None].  The arithmetic on an
    attribute that is [None] raises [TypeError]. *)
Definition update_with_sensors (s : state) (now : R)
    (user_accel attitude : option triple) (dt : R)
  : result (state * option dr_result) :=
  if negb (is_active s) then Ok (s, None)
  else
    match current_lat s with
    | None => Ok (s, None)
    | Some clat =>
        let '(s1, delta_yaw) := integrate_attitude s attitude in
        let '(s2, accel_north, accel_east) :=
          integrate_accel s1 user_accel dt in
        let decay := 0.995 in
        let s3 :=
          s2 |> set_velocity_north (velocity_north s2 * decay)
             |> set_velocity_east (velocity_east s2 * decay) in
        let speed :=
          sqrt (velocity_north s3 ^ 2 + velocity_east s3 ^ 2) in
        let delta_lat := (velocity_north s3 * dt) / EARTH_RADIUS in
        let delta_lon :=
          (velocity_east s3 * dt)
          / (EARTH_RADIUS * cos (radians clat)) in
        match current_lon s3 with
        | None => Raise TypeError
        | Some clon =>
            let s4 :=
              s3 |> set_current_lat (Some (clat + degrees delta_lat))
                 |> set_current_lon (Some (clon + degrees delta_lon)) in
            match dr_start_time s4 with
            | None => Raise TypeError
            | Some t0 =>
                Ok (s4,
                    Some {| r_lat := clat + degrees delta_lat;
                            r_lon := clon + degrees delta_lon;
                            r_speed := speed;
                            r_heading := degrees (current_heading s4);
                            r_elapsed := now - t0;
                            r_debug :=
                              {| d_velocity_north := velocity_north s4;
                                 d_velocity_east := velocity_east s4;
                                 d_delta_yaw := delta_yaw;
                                 d_accel_north := accel_north;
                                 d_accel_east := accel_east;
                                 d_delta_lat := degrees delta_lat;
                                 d_delta_lon := degrees delta_lon |} |})
            end
        end
    end.

End DeadReckoning.

(** ** [g_sensor_app.py]: dead reckoning as [_update_display] drives it *)

Module DeadReckoningRun.

(** What one pass of [_update_display] means for the dead reckoning
    (lines 1459-1497).  [Signal]: [_update_gps_status] has returned
    [False], the fix is passed to [update_gps].  [NoSignal]: there is no
    location or [_update_gps_status] has returned [True]; [now1], [now2]
    and [now3] are the values [time.time()] has in [start_dead_reckoning]
    and in [update_with_sensors]. *)
Inductive event : Type :=
| Signal (lat lon speed course : R) (timestamp : option R)
| NoSignal (user_accel attitude : option triple) (dt now1 now2 now3 : R).

(** The object [self.dead_reckoning] and the flag [self._dr_mode]. *)
Record state : Type := mkstate {
  dead_reckoning : DeadReckoning.state;
  dr_mode : bool
}.

(** Lines 933-934 of [__init__]. *)
Definition init : state :=
  {| dead_reckoning := DeadReckoning.init; dr_mode := false |}.

(** One pass: the new state and [dr_result]. *)
Definition step (s : state) (e : event)
  : result (state * option DeadReckoning.dr_result) :=
  match e with
  | Signal lat lon speed course timestamp =>
      (* if not no_signal: *)
      Ok ({| dead_reckoning :=
               DeadReckoning.update_gps (dead_reckoning s)
                 lat lon speed course timestamp;
             dr_mode := false |},
          None)
  | NoSignal user_accel attitude dt now1 now2 now3 =>
      (* if no_signal and self.dead_reckoning.last_gps_lat is not None: *)
      match DeadReckoning.last_gps_lat (dead_reckoning s) with
      | None => Ok (s, None)
      | Some _ =>
          let s1 :=
            if negb (dr_mode s) then
              {| dead_reckoning :=
                   fst (DeadReckoning.start_dead_reckoning
                          (dead_reckoning s) now1 now2);
                 dr_mode := true |}
            else s in
          match DeadReckoning.update_with_sensors (dead_reckoning s1)
                  now3 user_accel attitude dt with
          | Ok (d, r) =>
              Ok ({| dead_reckoning := d; dr_mode := dr_mode s1 |}, r)
          | Raise x => Raise x
          end
      end
  end.

(** The passes are made in order; an exception ends the run. *)
Fixpoint run (s : state) (es : list event) : result state :=
  match es with
  | [] => Ok s
  | e :: es' =>
      match step s e with
      | Ok (s', _) => run s' es'
      | Raise x => Raise x
      end
  end.

(** A pass without signal whose acceleration is not integrated. *)
Definition coasting (e : event) : bool :=
  match e with
  | Signal _ _ _ _ _ => false
  | NoSignal user_accel _ _ _ _ _ => DeadReckoning.not_integrated user_accel
  end.


(** A fix has been received: the object has a position, and while
    [_dr_mode] is set it is active with a start time. *)
Definition has_fix (s : state) : Prop :=
  DeadReckoning.last_gps_lat (dead_reckoning s) <> None
  /\ DeadReckoning.current_lat (dead_reckoning s) <> None
  /\ DeadReckoning.current_lon (dead_reckoning s) <> None
  /\ (dr_mode s = true ->
      DeadReckoning.is_active (dead_reckoning s) = true
      /\ DeadReckoning.dr_start_time (dead_reckoning s) <> None).

(** The time from which an outage that goes on, or begins at [now1], is
    counted. *)
Definition outage_start (s : state) (now1 : R) : R :=
  if dr_mode s then
    match DeadReckoning.dr_start_time (dead_reckoning s) with
    | Some t0 => t0
    | None => now1
    end
  else now1.

End DeadReckoningRun.

(** * Properties *)

(** Case analysis on the scrutinee of every [match] and [if] of the goal. *)
Ltac branch_cases :=
  repeat match goal with
    | |- context [match ?x with _ => _ end] => destruct x eqn:?
    end.

(** ** Comparisons and constants *)

Lemma Rltb_true (x y : R) : Rltb x y = true <-> x < y.
Proof. unfold Rltb; destruct (Rlt_dec x y); split; intros; (easy || lra). Qed.

Lemma Rltb_false (x y : R) : Rltb x y = false <-> y <= x.
Proof. unfold Rltb; destruct (Rlt_dec x y); split; intros; (easy || lra). Qed.

Lemma Rleb_true (x y : R) : Rleb x y = true <-> x <= y.
Proof. unfold Rleb; destruct (Rle_dec x y); split; intros; (easy || lra). Qed.

Lemma Rleb_false (x y : R) : Rleb x y = false <-> y < x.
Proof. unfold Rleb; destruct (Rle_dec x y); split; intros; (easy || lra). Qed.

Lemma Rneqb_true (x y : R) : Rneqb x y = true <-> x <> y.
Proof. unfold Rneqb; destruct (Req_dec_T x y); split; intros; (easy || lra). Qed.

Lemma Rneqb_false (x y : R) : Rneqb x y = false <-> x = y.
Proof. unfold Rneqb; destruct (Req_dec_T x y); split; intros; (easy || lra). Qed.

Lemma gps_weight_eq (accuracy : R) :
  gps_weight accuracy = 1 / (1 + accuracy / 10).
Proof.
  unfold gps_weight.
  replace 1.0 with 1 by lra. replace 10.0 with 10 by lra. reflexivity.
Qed.

Lemma gps_weight_range (accuracy : R) :
  0 <= accuracy -> 0 < gps_weight accuracy <= 1.
Proof.
  intros Hacc. rewrite gps_weight_eq.
  assert (Hd : 1 <= 1 + accuracy / 10) by lra.
  split.
  - apply Rdiv_lt_0_compat; lra.
  - apply Rmult_le_reg_r with (1 + accuracy / 10); [ lra | ].
    unfold Rdiv. rewrite Rmult_assoc, Rinv_l; lra.
Qed.

(** The two accuracy tests of [update_gps] exclude each other: a fix that
    is degraded is not remembered as a good one. *)
Lemma degraded_not_good (accuracy : R) :
  accuracy < 0 \/ 30 <= accuracy ->
  Rgeb accuracy 0 && Rltb accuracy 15.0 = false.
Proof. intros [H | H]; cmp_cases. Qed.

Lemma degraded_test (accuracy : R) :
  accuracy < 0 \/ 30 <= accuracy ->
  Rltb accuracy 0 || Rgeb accuracy 30.0 = true.
Proof. intros [H | H]; cmp_cases. Qed.

Lemma usable_test (accuracy : R) :
  0 <= accuracy < 30 ->
  Rltb accuracy 0 || Rgeb accuracy 30.0 = false.
Proof. intros H; cmp_cases. Qed.

(** ** The application's engine keeps its fields consistent *)

Module AppFacts.
Import App.


Lemma remember_good_fix_frame t speed course accuracy s :
  estimate (remember_good_fix t speed course accuracy s) = estimate s
  /\ is_initialized (remember_good_fix t speed course accuracy s)
     = is_initialized s
  /\ last_yaw (remember_good_fix t speed course accuracy s) = last_yaw s.
Proof.
  unfold remember_good_fix.
  destruct (Rgeb accuracy 0 && Rltb accuracy ACCURACY_THRESHOLD_GOOD);
    [ | easy ].
  destruct (Rgeb course 0 && Rgtb speed 0.3); simpl;
    destruct (is_memory_mode s); easy.
Qed.

Lemma enter_memory_mode_frame t s :
  estimate (enter_memory_mode t s) = estimate s
  /\ is_initialized (enter_memory_mode t s) = is_initialized s.
Proof.
  unfold enter_memory_mode.
  destruct (negb (is_memory_mode s) && Rgtb (memory_speed s) 0.3); easy.
Qed.

End AppFacts.

Module AppTotal.
Import App.


End AppTotal.

Module AppBranches.
Import App.

Lemma memory_branch_untouched s attitude s1 vn ve sp :
  memory_branch s attitude = (s1, vn, ve, sp) -> untouched s s1.
Proof.
  unfold memory_branch, integrate_yaw, untouched.
  destruct attitude as [[[roll pitch] yaw] | ];
    [ destruct (last_yaw s) | ];
    intros H; inversion H; simpl; easy.
Qed.

Lemma ins_branch_untouched s user_accel attitude dt s1 vn ve sp :
  ins_branch s user_accel attitude dt = (s1, vn, ve, sp) -> untouched s s1.
Proof.
  unfold ins_branch, integrate_yaw, untouched.
  intros H; inversion H; clear H.
  branch_cases; simpl; easy.
Qed.

End AppBranches.

Module AppPredict.
Import App.

(** Before the first fix [update_ins] returns [None] and changes
    nothing. *)
Lemma update_ins_uninitialized s now user_accel attitude dt :
  is_initialized s = false ->
  update_ins s now user_accel attitude dt = Ok (s, None).
Proof. unfold update_ins. intros ->. reflexivity. Qed.

(** On an initialised engine [update_ins] returns a dictionary, whatever
    [dt] is: one track entry is appended, the uncertainties move by
    [0.1 * dt] and [0.05 * dt], and the mode reported is the branch
    taken. *)
Lemma update_ins_initialized s now user_accel attitude dt :
  wf s -> is_initialized s = true ->
  exists s' r,
    update_ins s now user_accel attitude dt = Ok (s', Some r)
    /\ wf s'
    /\ is_initialized s' = true
    /\ track s' = track s ++ [(r_lat r, r_lon r)]
    /\ position_uncertainty s' = position_uncertainty s + 0.1 * dt
    /\ velocity_uncertainty s' = velocity_uncertainty s + 0.05 * dt
    /\ r_mode r = (if use_memory_track s now then "memory_track"%string
                   else "ins"%string).
Proof.
  unfold wf, update_ins. intros Hwf Hi. rewrite Hi in *.
  cbn [negb]. simpl in Hwf.
  destruct Hwf as [Hla Hlo].
  destruct (current_lat s) as [clat | ] eqn:Elat; [ | congruence ].
  assert (Hfin : forall use_memory br s1 vn ve sp,
             br = (s1, vn, ve, sp) -> App.untouched s s1 ->
             exists s' r,
               finish_ins s now clat use_memory br dt = Ok (s', Some r)
               /\ (if is_initialized s'
                   then current_lat s' <> None /\ current_lon s' <> None
                   else track s' = [])
               /\ is_initialized s' = true
               /\ track s' = track s ++ [(r_lat r, r_lon r)]
               /\ position_uncertainty s' = position_uncertainty s + 0.1 * dt
               /\ velocity_uncertainty s' = velocity_uncertainty s + 0.05 * dt
               /\ r_mode r = (if use_memory then "memory_track"%string
                              else "ins"%string)).
  { intros use_memory br s1 vn ve sp -> (H1 & H2 & H3 & H4 & H5 & H6).
    unfold finish_ins.
    destruct (current_lon s1) as [clon | ] eqn:Elon; [ | congruence ].
    eexists; eexists; split; [ reflexivity | ].
    simpl. rewrite H3, Hi, H4, H5, H6.
    repeat split; try discriminate; reflexivity. }
  destruct (use_memory_track s now).
  - destruct (memory_branch s attitude) as [[[s1 vn] ve] sp] eqn:E.
    apply (Hfin true (s1, vn, ve, sp) s1 vn ve sp eq_refl).
    eapply AppBranches.memory_branch_untouched; eassumption.
  - destruct (ins_branch s user_accel attitude dt) as [[[s1 vn] ve] sp] eqn:E.
    apply (Hfin false (s1, vn, ve, sp) s1 vn ve sp eq_refl).
    eapply AppBranches.ins_branch_untouched; eassumption.
Qed.

End AppPredict.

(** ** C1: a poor fix is skipped *)

(** C1.  On an initialised engine, a fix whose accuracy is negative or at
    least 30 m leaves position, velocity, heading, uncertainties and track
    as they were.  The state changes only when the engine is not in memory
    mode and the remembered speed exceeds 0.3 m/s: then the memory flag is
    set and the entry time recorded.  Both variants. *)
Theorem poor_fix_only_enters_memory_mode :
  forall (sa : App.state) (sv : Viewer.state)
         (now lat lon speed course accuracy : R) (timestamp : option R),
    App.is_initialized sa = true ->
    accuracy < 0 \/ 30 <= accuracy ->
    (exists sa',
        App.update_gps sa now lat lon speed course accuracy = Ok sa'
        /\ App.estimate sa' = App.estimate sa
        /\ (App.is_memory_mode sa = false -> 0.3 < App.memory_speed sa ->
            sa' = App.in_memory_mode_since now sa)
        /\ (App.is_memory_mode sa = true \/ App.memory_speed sa <= 0.3 ->
            sa' = sa))
    /\ (let sv' :=
          Viewer.update_gps sv lat lon speed course accuracy timestamp in
        Viewer.estimate sv' = Viewer.estimate sv
        /\ (Viewer.is_memory_mode sv = false ->
            0.3 < Viewer.memory_speed sv ->
            sv' = Viewer.in_memory_mode_since timestamp sv)
        /\ (Viewer.is_memory_mode sv = true
            \/ Viewer.memory_speed sv <= 0.3 ->
            sv' = sv)).
Proof.
  intros sa sv now lat lon speed course accuracy timestamp Hi Hacc.
  pose proof (degraded_not_good accuracy Hacc) as Hgood.
  pose proof (degraded_test accuracy Hacc) as Hbad.
  split.
  - unfold App.update_gps, App.remember_good_fix.
    unfold App.ACCURACY_THRESHOLD_GOOD, App.ACCURACY_THRESHOLD_DEGRADE.
    rewrite Hi, Hgood, Hbad. simpl.
    eexists; split; [ reflexivity | ].
    unfold App.enter_memory_mode, App.in_memory_mode_since.
    destruct (App.is_memory_mode sa) eqn:Hm; simpl.
    + repeat split; easy.
    + destruct (Rgtb (App.memory_speed sa) 0.3) eqn:Hs.
      * repeat split; try easy.
        apply Rltb_true in Hs. intros [H | H]; [ easy | lra ].
      * repeat split; try easy.
        apply Rltb_false in Hs. intros _ H; lra.
  - unfold Viewer.update_gps, Viewer.remember_good_fix.
    unfold Viewer.ACCURACY_THRESHOLD_GOOD, Viewer.ACCURACY_THRESHOLD_DEGRADE.
    rewrite Hgood, Hbad. simpl.
    unfold Viewer.enter_memory_mode, Viewer.in_memory_mode_since.
    destruct (Viewer.is_memory_mode sv) eqn:Hm; simpl.
    + repeat split; easy.
    + destruct (Rgtb (Viewer.memory_speed sv) 0.3) eqn:Hs.
      * repeat split; try easy.
        apply Rltb_true in Hs. intros [H | H]; [ easy | lra ].
      * repeat split; try easy.
        apply Rltb_false in Hs. intros _ H; lra.
Qed.

Lemma poor_fix_only_enters_memory_mode_witness :
  App.is_initialized app_moving = true
  /\ (50 < 0 \/ 30 <= 50)
  /\ exists sa',
       App.update_gps app_moving 1000 35 139 (-1) (-1) 50 = Ok sa'
       /\ App.estimate sa' = App.estimate app_moving.
Proof.
  assert (Hi : App.is_initialized app_moving = true) by reflexivity.
  assert (Hacc : 50 < 0 \/ 30 <= 50) by (right; lra).
  split; [ exact Hi | split; [ exact Hacc | ] ].
  destruct (poor_fix_only_enters_memory_mode app_moving viewer_moving
              1000 35 139 (-1) (-1) 50 (Some 1000) Hi Hacc)
    as [(sa' & Hok & Hest & _) _].
  exists sa'. split; [ exact Hok | exact Hest ].
Defined.

(** ** C2: the uncertainties *)

Module ViewerFacts.
Import Viewer.

Lemma viewer_remember_good_fix_frame t speed course accuracy s :
  estimate (remember_good_fix t speed course accuracy s) = estimate s.
Proof.
  unfold remember_good_fix.
  destruct (Rgeb accuracy 0 && Rltb accuracy ACCURACY_THRESHOLD_GOOD);
    [ | easy ].
  destruct (Rgeb course 0 && Rgtb speed 0.3); simpl;
    destruct (is_memory_mode s); easy.
Qed.

Lemma viewer_memory_branch_untouched s attitude dt :
  position_uncertainty (memory_branch s attitude dt) = position_uncertainty s
  /\ velocity_uncertainty (memory_branch s attitude dt)
     = velocity_uncertainty s
  /\ track (memory_branch s attitude dt) = track s.
Proof.
  unfold memory_branch.
  destruct attitude as [[[roll pitch] yaw] | ]; simpl; easy.
Qed.

Lemma viewer_ins_branch_untouched s user_accel attitude dt :
  position_uncertainty (ins_branch s user_accel attitude dt)
  = position_uncertainty s
  /\ velocity_uncertainty (ins_branch s user_accel attitude dt)
     = velocity_uncertainty s
  /\ track (ins_branch s user_accel attitude dt) = track s.
Proof.
  unfold ins_branch.
  branch_cases; simpl; easy.
Qed.

(** A prediction step that passes the [dt] guard: the uncertainties grow
    by [0.5 * dt] and [0.1 * dt] and the track gets one entry, tagged with
    the branch taken. *)
Lemma viewer_update_ins_positive_dt s user_accel attitude dt timestamp :
  0 < dt ->
  let s' := update_ins s user_accel attitude dt timestamp in
  position_uncertainty s' = position_uncertainty s + 0.5 * dt
  /\ velocity_uncertainty s' = velocity_uncertainty s + 0.1 * dt
  /\ track s'
     = track s ++ [(current_lat s', current_lon s',
                    if use_memory_track s timestamp then "memory"%string
                    else "ins"%string)].
Proof.
  intros Hdt. unfold update_ins.
  assert (Hg : Rleb dt 0 = false) by (apply Rleb_false; lra).
  rewrite Hg.
  destruct (use_memory_track s timestamp); unfold finish_ins.
  - destruct (viewer_memory_branch_untouched s attitude dt) as (H1 & H2 & H3).
    revert H1 H2 H3. generalize (memory_branch s attitude dt).
    intros m H1 H2 H3. simpl. rewrite H1, H2, H3. easy.
  - destruct (viewer_ins_branch_untouched s user_accel attitude dt)
      as (H1 & H2 & H3).
    revert H1 H2 H3. generalize (ins_branch s user_accel attitude dt).
    intros m H1 H2 H3. simpl. rewrite H1, H2, H3. easy.
Qed.

End ViewerFacts.

(** C2.  With [dt > 0] a prediction step decreases neither the position
    uncertainty nor the velocity uncertainty; a fix of usable accuracy
    ([0 <= accuracy < 30]) leaves the position uncertainty at most the
    larger of its previous value and the accuracy of the fix.  Both
    variants; the application's engine does not raise. *)
Theorem uncertainty_monotone :
  forall (sa : App.state) (sv : Viewer.state)
         (now dt lat lon speed course accuracy : R)
         (user_accel attitude : option triple) (timestamp : option R),
    App.wf sa ->
    0 < dt ->
    0 <= accuracy < 30 ->
    (exists sa' r,
        App.update_ins sa now user_accel attitude dt = Ok (sa', r)
        /\ App.position_uncertainty sa <= App.position_uncertainty sa'
        /\ App.velocity_uncertainty sa <= App.velocity_uncertainty sa')
    /\ (exists sa',
          App.update_gps sa now lat lon speed course accuracy = Ok sa'
          /\ App.position_uncertainty sa'
             <= Rmax (App.position_uncertainty sa) accuracy)
    /\ (let sv' := Viewer.update_ins sv user_accel attitude dt timestamp in
        Viewer.position_uncertainty sv <= Viewer.position_uncertainty sv'
        /\ Viewer.velocity_uncertainty sv <= Viewer.velocity_uncertainty sv')
    /\ Viewer.position_uncertainty
         (Viewer.update_gps sv lat lon speed course accuracy timestamp)
       <= Rmax (Viewer.position_uncertainty sv) accuracy.
Proof.
  intros sa sv now dt lat lon speed course accuracy user_accel attitude
    timestamp Hwf Hdt Hacc.
  pose proof (usable_test accuracy Hacc) as Husable.
  repeat split.
  - destruct (App.is_initialized sa) eqn:Hi.
    + destruct (AppPredict.update_ins_initialized sa now user_accel
                  attitude dt Hwf Hi)
        as (sa' & r & Hok & _ & _ & _ & Hpu & Hvu & _).
      exists sa', (Some r). rewrite Hpu, Hvu. repeat split; [ easy | lra | lra ].
    + exists sa, None.
      rewrite (AppPredict.update_ins_uninitialized sa now user_accel
                 attitude dt Hi).
      repeat split; lra.
  - unfold App.update_gps.
    destruct (App.is_initialized sa) eqn:Hi; simpl.
    + destruct (AppFacts.remember_good_fix_frame now speed course accuracy sa)
        as (He & Hi' & _).
      set (s1 := App.remember_good_fix now speed course accuracy sa) in *.
      unfold App.ACCURACY_THRESHOLD_DEGRADE. rewrite Husable.
      unfold App.estimate in He.
      inversion He as [[Hlat Hlon Hvn Hve Hh Hpu Hvu Ht]].
      unfold App.wf in Hwf. rewrite Hi in Hwf. destruct Hwf as [Hla Hlo].
      destruct (App.current_lat sa) as [clat | ]; [ | congruence ].
      destruct (App.current_lon sa) as [clon | ]; [ | congruence ].
      rewrite Hlat, Hlon.
      eexists; split; [ reflexivity | ].
      assert (Hmax : accuracy * 0.5 + App.position_uncertainty sa * 0.5
                     <= Rmax (App.position_uncertainty sa) accuracy).
      { pose proof (Rmax_l (App.position_uncertainty sa) accuracy).
        pose proof (Rmax_r (App.position_uncertainty sa) accuracy).
        lra. }
      destruct (Rgeb course 0 && Rgtb speed 0.5); simpl; rewrite Hpu;
        exact Hmax.
    + eexists; split; [ reflexivity | ]. simpl. apply Rmax_l.
  - destruct (ViewerFacts.viewer_update_ins_positive_dt sv user_accel attitude dt
                timestamp Hdt) as (Hpu & _).
    rewrite Hpu. lra.
  - destruct (ViewerFacts.viewer_update_ins_positive_dt sv user_accel attitude dt
                timestamp Hdt) as (_ & Hvu & _).
    rewrite Hvu. lra.
  - unfold Viewer.update_gps.
    unfold Viewer.ACCURACY_THRESHOLD_DEGRADE. rewrite Husable.
    destruct (Rgeb speed 0 && Rgeb course 0); simpl; apply Rmax_r.
Qed.

Lemma uncertainty_monotone_witness :
  App.wf app_moving /\ 0 < 0.1 /\ 0 <= 5 < 30
  /\ Viewer.position_uncertainty
       (Viewer.update_gps viewer_moving 35 139 2 90 5 (Some 1000))
     <= Rmax (Viewer.position_uncertainty viewer_moving) 5.
Proof.
  assert (Hwf : App.wf app_moving) by (split; discriminate).
  assert (Hdt : 0 < 0.1) by lra.
  assert (Hacc : 0 <= 5 < 30) by lra.
  split; [ exact Hwf | split; [ exact Hdt | split; [ exact Hacc | ] ] ].
  apply (uncertainty_monotone app_moving viewer_moving 1000 0.1 35 139 2 90 5
           (Some (0.1, 0, 0)) (Some (0, 0, 1)) (Some 1000) Hwf Hdt Hacc).
Defined.

(** ** C3: memory track expires by itself *)

Lemma app_memory_expired (s : App.state) (now t0 : R) :
  App.memory_mode_start_time s = Some t0 ->
  60 <= now - t0 \/ App.memory_speed s <= 0.3 ->
  App.use_memory_track s now = false.
Proof.
  intros Ht0 Hexp.
  unfold App.use_memory_track, App.memory_elapsed, App.MEMORY_MAX_DURATION.
  rewrite Ht0.
  destruct (App.is_memory_mode s); [ | reflexivity ].
  simpl. destruct (Rneqb t0 0); [ | reflexivity ].
  simpl. destruct Hexp; cmp_cases.
Qed.

Lemma viewer_memory_expired (s : Viewer.state) (t t0 : R) :
  Viewer.memory_mode_start_time s = Some t0 ->
  60 <= t - t0 \/ Viewer.memory_speed s <= 0.3 ->
  Viewer.use_memory_track s (Some t) = false.
Proof.
  intros Ht0 Hexp.
  unfold Viewer.use_memory_track, Viewer.MEMORY_MAX_DURATION.
  rewrite Ht0.
  destruct (Viewer.is_memory_mode s && truthy (Some t0) && truthy (Some t));
    [ | reflexivity ].
  destruct Hexp; cmp_cases.
Qed.

(** C3.  A prediction step made in memory mode, but 60 s or more after the
    mode was entered or with a remembered speed of 0.3 m/s or less, does
    not take the memory branch: it is the inertial step, and what it
    records is tagged [ins] (the viewer's track entry, the application's
    returned mode).  No fix is involved.  The viewer's step is one that
    passes its [dt > 0] guard. *)
Theorem memory_track_expires :
  forall (sa : App.state) (sv : Viewer.state) (now ta tv dt clat : R)
         (user_accel attitude : option triple),
    App.wf sa ->
    App.is_initialized sa = true ->
    App.current_lat sa = Some clat ->
    App.is_memory_mode sa = true ->
    App.memory_mode_start_time sa = Some ta ->
    60 <= now - ta \/ App.memory_speed sa <= 0.3 ->
    Viewer.is_memory_mode sv = true ->
    Viewer.memory_mode_start_time sv = Some tv ->
    60 <= now - tv \/ Viewer.memory_speed sv <= 0.3 ->
    0 < dt ->
    (App.update_ins sa now user_accel attitude dt
     = App.finish_ins sa now clat false
         (App.ins_branch sa user_accel attitude dt) dt
     /\ exists sa' r,
          App.update_ins sa now user_accel attitude dt = Ok (sa', Some r)
          /\ App.r_mode r = "ins"%string)
    /\ (let sv' :=
          Viewer.update_ins sv user_accel attitude dt (Some now) in
        sv' = Viewer.finish_ins "ins" dt
                (Viewer.ins_branch sv user_accel attitude dt)
        /\ Viewer.track sv'
           = Viewer.track sv
             ++ [(Viewer.current_lat sv', Viewer.current_lon sv',
                  "ins"%string)]).
Proof.
  intros sa sv now ta tv dt clat user_accel attitude
    Hwf Hi Hlat _ Hta Hea _ Htv Hev Hdt.
  pose proof (app_memory_expired sa now ta Hta Hea) as Ha.
  pose proof (viewer_memory_expired sv now tv Htv Hev) as Hv.
  split; [ split | split ].
  - unfold App.update_ins. rewrite Hi, Hlat, Ha. reflexivity.
  - destruct (AppPredict.update_ins_initialized sa now user_accel attitude
                dt Hwf Hi) as (sa' & r & Hok & _ & _ & _ & _ & _ & Hmode).
    rewrite Ha in Hmode. exists sa', r. split; assumption.
  - unfold Viewer.update_ins.
    assert (Hg : Rleb dt 0 = false) by (apply Rleb_false; lra).
    rewrite Hg, Hv. reflexivity.
  - destruct (ViewerFacts.viewer_update_ins_positive_dt sv user_accel attitude dt
                (Some now) Hdt) as (_ & _ & Ht).
    rewrite Hv in Ht. exact Ht.
Qed.

Lemma memory_track_expires_witness :
  exists sa' r,
    App.update_ins app_decayed 110 None None 0.1 = Ok (sa', Some r)
    /\ App.r_mode r = "ins"%string.
Proof.
  assert (Hwf : App.wf app_decayed) by (split; discriminate).
  assert (Hexp : 60 <= 110 - 100 \/ 0.2 <= 0.3) by (right; lra).
  assert (Hdt : 0 < 0.1) by lra.
  apply (memory_track_expires app_decayed viewer_decayed 110 100 100 0.1 35
           None None Hwf eq_refl eq_refl eq_refl eq_refl Hexp
           eq_refl eq_refl Hexp Hdt).
Defined.

(** ** C4: a prediction step with [dt <= 0] *)

Lemma viewer_update_ins_nonpositive_dt s user_accel attitude dt timestamp :
  dt <= 0 ->
  Viewer.update_ins s user_accel attitude dt timestamp = s.
Proof.
  intros Hdt. unfold Viewer.update_ins.
  assert (Hg : Rleb dt 0 = true) by (apply Rleb_true; lra).
  rewrite Hg. reflexivity.
Qed.

(** C4.  The application's [update_ins] has no test on [dt].  On the
    engine that has just had its first fix, a call with [dt = 0] returns a
    dictionary and appends a second entry to the track, and a call with
    [dt = -1] lowers both uncertainties.  The viewer's [update_ins] returns
    at once on the same calls. *)
Theorem app_update_ins_nonpositive_dt_not_noop :
  (exists s' r,
      App.update_ins app_first_fix 1000 None None 0 = Ok (s', Some r)
      /\ List.length (App.track s') = 2%nat
      /\ List.length (App.track app_first_fix) = 1%nat)
  /\ (exists s' r,
        App.update_ins app_first_fix 1000 None None (-1) = Ok (s', Some r)
        /\ App.position_uncertainty s'
           < App.position_uncertainty app_first_fix
        /\ App.velocity_uncertainty s'
           < App.velocity_uncertainty app_first_fix)
  /\ Viewer.update_ins (Viewer.init 35 139) None None 0 (Some 1000)
     = Viewer.init 35 139
  /\ Viewer.update_ins (Viewer.init 35 139) None None (-1) (Some 1000)
     = Viewer.init 35 139.
Proof.
  assert (Hwf : App.wf app_first_fix) by (split; discriminate).
  assert (Hi : App.is_initialized app_first_fix = true) by reflexivity.
  repeat split.
  - destruct (AppPredict.update_ins_initialized app_first_fix 1000 None None
                0 Hwf Hi) as (s' & r & Hok & _ & _ & Ht & _).
    exists s', r. rewrite Ht.
    split; [ exact Hok | split; reflexivity ].
  - destruct (AppPredict.update_ins_initialized app_first_fix 1000 None None
                (-1) Hwf Hi) as (s' & r & Hok & _ & _ & _ & Hpu & Hvu & _).
    exists s', r. rewrite Hpu, Hvu. repeat split; [ exact Hok | lra | lra ].
  - apply viewer_update_ins_nonpositive_dt; lra.
  - apply viewer_update_ins_nonpositive_dt; lra.
Qed.

(** ** C5: the track *)

Lemma appended_one {A : Type} (l : list A) (x : A) : appended l (l ++ [x]) 1.
Proof. exists [x]. split; reflexivity. Qed.

Module AppTrack.
Import App.

Lemma update_gps_track s now lat lon speed course accuracy :
  wf s ->
  exists s',
    update_gps s now lat lon speed course accuracy = Ok s'
    /\ (is_initialized s = true -> accuracy < 0 \/ 30 <= accuracy ->
        track s' = track s)
    /\ (is_initialized s = true -> 0 <= accuracy < 30 ->
        appended (track s) (track s') 1)
    /\ (is_initialized s = false -> appended (track s) (track s') 1).
Proof.
  unfold wf, update_gps. intros Hwf.
  destruct (is_initialized s) eqn:Hi; cbn [negb].
  - destruct (AppFacts.remember_good_fix_frame now speed course accuracy s)
      as (He & _ & _).
    revert He. generalize (remember_good_fix now speed course accuracy s).
    intros s1 He. unfold estimate in He.
    inversion He as [[Hlat Hlon Hvn Hve Hh Hpu Hvu Ht]].
    unfold ACCURACY_THRESHOLD_DEGRADE.
    destruct (Rltb accuracy 0 || Rgeb accuracy 30.0) eqn:Hbad.
    + eexists; split; [ reflexivity | ].
      destruct (AppFacts.enter_memory_mode_frame now s1) as (He' & _).
      unfold estimate in He'.
      inversion He' as [[Hlat' Hlon' Hvn' Hve' Hh' Hpu' Hvu' Ht']].
      repeat split; try discriminate.
      intros _ Hus. rewrite (usable_test accuracy Hus) in Hbad.
      discriminate.
    + destruct Hwf as [Hla Hlo].
      destruct (current_lat s) as [clat | ]; [ | congruence ].
      destruct (current_lon s) as [clon | ]; [ | congruence ].
      rewrite Hlat, Hlon.
      eexists; split; [ reflexivity | ].
      repeat split; try discriminate.
      * intros _ Hdeg. rewrite (degraded_test accuracy Hdeg) in Hbad.
        discriminate.
      * intros _ _.
        destruct (Rgeb course 0 && Rgtb speed 0.5); simpl; rewrite Ht;
          apply appended_one.
  - eexists; split; [ reflexivity | ].
    repeat split; try discriminate.
    intros _. simpl. rewrite Hwf. exists [(lat, lon)]. split; reflexivity.
Qed.

End AppTrack.

Module ViewerTrack.
Import Viewer.

Lemma viewer_update_gps_degraded s lat lon speed course accuracy timestamp :
  accuracy < 0 \/ 30 <= accuracy ->
  estimate (update_gps s lat lon speed course accuracy timestamp)
  = estimate s.
Proof.
  intros Hacc. unfold update_gps, ACCURACY_THRESHOLD_DEGRADE.
  rewrite (degraded_test accuracy Hacc).
  rewrite <- (ViewerFacts.viewer_remember_good_fix_frame timestamp speed course
                accuracy s).
  generalize (remember_good_fix timestamp speed course accuracy s).
  intros s1. unfold enter_memory_mode.
  destruct (negb (is_memory_mode s1) && Rgtb (memory_speed s1) 0.3);
    reflexivity.
Qed.

Lemma viewer_update_gps_usable s lat lon speed course accuracy timestamp :
  0 <= accuracy < 30 ->
  let s' := update_gps s lat lon speed course accuracy timestamp in
  let w := gps_weight accuracy in
  current_lat s' = (1 - w) * current_lat s + w * lat
  /\ current_lon s' = (1 - w) * current_lon s + w * lon
  /\ track s' = track s ++ [(current_lat s', current_lon s', "fused"%string)].
Proof.
  intros Hacc. unfold update_gps, ACCURACY_THRESHOLD_DEGRADE.
  rewrite (usable_test accuracy Hacc).
  pose proof (ViewerFacts.viewer_remember_good_fix_frame timestamp speed course
                accuracy s) as He.
  revert He. generalize (remember_good_fix timestamp speed course accuracy s).
  intros s1 He. unfold estimate in He.
  inversion He as [[Hlat Hlon Hvn Hve Hpu Hvu Ht]].
  destruct (Rgeb speed 0 && Rgeb course 0); simpl;
    rewrite Ht, Hlat, Hlon; repeat split.
Qed.

End ViewerTrack.

(** C5, as stated, fails: a fix of accuracy 50 m appends nothing to the
    track, and neither does the viewer's prediction step with [dt = 0]. *)
Lemma poor_fix_appends_nothing :
  let s := Viewer.init 35 139 in
  List.length
    (Viewer.track (Viewer.update_gps s 35 139 (-1) (-1) 50 (Some 1000)))
  <> S (List.length (Viewer.track s))
  /\ List.length
       (Viewer.track (Viewer.update_ins s None None 0 (Some 1000)))
     <> S (List.length (Viewer.track s)).
Proof.
  intros s. split.
  - assert (H : Viewer.estimate
                  (Viewer.update_gps s 35 139 (-1) (-1) 50 (Some 1000))
                = Viewer.estimate s)
      by (apply ViewerTrack.viewer_update_gps_degraded; right; lra).
    apply (f_equal snd) in H. simpl in H. rewrite H. discriminate.
  - rewrite viewer_update_ins_nonpositive_dt by lra. discriminate.
Qed.

(** C5, amended.  A call that passes the guards of its method appends
    exactly one entry: [update_gps] with a usable accuracy
    ([0 <= accuracy < 30]), the application's [update_gps] before
    initialisation, and [update_ins] with [dt > 0] (on an initialised
    engine, for the application).  A call stopped by a guard appends
    nothing: [update_gps] with a negative accuracy or one of 30 m or more,
    the viewer's [update_ins] with [dt <= 0], the application's
    [update_ins] before initialisation.  Every call keeps the entries
    already there, in place. *)
Theorem track_grows_by_guarded_calls :
  forall (sa : App.state) (sv : Viewer.state)
         (now lat lon speed course accuracy dt : R)
         (user_accel attitude : option triple) (timestamp : option R),
    App.wf sa ->
    (exists sa',
        App.update_gps sa now lat lon speed course accuracy = Ok sa'
        /\ (App.is_initialized sa = true -> accuracy < 0 \/ 30 <= accuracy ->
            App.track sa' = App.track sa)
        /\ (App.is_initialized sa = true -> 0 <= accuracy < 30 ->
            appended (App.track sa) (App.track sa') 1)
        /\ (App.is_initialized sa = false ->
            appended (App.track sa) (App.track sa') 1))
    /\ (exists sa' r,
          App.update_ins sa now user_accel attitude dt = Ok (sa', r)
          /\ (App.is_initialized sa = false -> App.track sa' = App.track sa)
          /\ (App.is_initialized sa = true -> 0 < dt ->
              appended (App.track sa) (App.track sa') 1)
          /\ (exists l, App.track sa' = App.track sa ++ l))
    /\ (let sv' :=
          Viewer.update_gps sv lat lon speed course accuracy timestamp in
        (accuracy < 0 \/ 30 <= accuracy -> Viewer.track sv' = Viewer.track sv)
        /\ (0 <= accuracy < 30 ->
            appended (Viewer.track sv) (Viewer.track sv') 1))
    /\ (let sv' := Viewer.update_ins sv user_accel attitude dt timestamp in
        (dt <= 0 -> Viewer.track sv' = Viewer.track sv)
        /\ (0 < dt -> appended (Viewer.track sv) (Viewer.track sv') 1)).
Proof.
  intros sa sv now lat lon speed course accuracy dt user_accel attitude
    timestamp Hwf.
  split; [ | split; [ | split ] ].
  - apply AppTrack.update_gps_track; exact Hwf.
  - destruct (App.is_initialized sa) eqn:Hi.
    + destruct (AppPredict.update_ins_initialized sa now user_accel attitude
                  dt Hwf Hi) as (sa' & r & Hok & _ & _ & Ht & _).
      exists sa', (Some r). rewrite Ht.
      repeat split; try easy.
      * intros _ _. apply appended_one.
      * eexists; reflexivity.
    + exists sa, None.
      rewrite (AppPredict.update_ins_uninitialized sa now user_accel
                 attitude dt Hi).
      repeat split; try easy.
      exists []. symmetry; apply app_nil_r.
  - split.
    + intros Hacc.
      pose proof (ViewerTrack.viewer_update_gps_degraded sv lat lon speed course
                    accuracy timestamp Hacc) as H.
      apply (f_equal snd) in H. exact H.
    + intros Hacc.
      destruct (ViewerTrack.viewer_update_gps_usable sv lat lon speed course
                  accuracy timestamp Hacc) as (_ & _ & Ht).
      rewrite Ht. apply appended_one.
  - split.
    + intros Hdt. rewrite viewer_update_ins_nonpositive_dt by exact Hdt.
      reflexivity.
    + intros Hdt.
      destruct (ViewerFacts.viewer_update_ins_positive_dt sv user_accel attitude dt
                  timestamp Hdt) as (_ & _ & Ht).
      rewrite Ht. apply appended_one.
Qed.

Lemma track_grows_by_guarded_calls_witness :
  App.wf app_first_fix
  /\ exists sa',
       App.update_gps app_first_fix 1000 35 139 2 90 5 = Ok sa'
       /\ appended (App.track app_first_fix) (App.track sa') 1.
Proof.
  assert (Hwf : App.wf app_first_fix) by (split; discriminate).
  split; [ exact Hwf | ].
  destruct (track_grows_by_guarded_calls app_first_fix (Viewer.init 35 139)
              1000 35 139 2 90 5 0.1 None None (Some 1000) Hwf)
    as [(sa' & Hok & _ & Hus & _) _].
  exists sa'. split; [ exact Hok | ].
  apply Hus; [ reflexivity | lra ].
Defined.

(** ** C6 and C9: what a usable fix does *)

Module AppFix.
Import App.

(** A fix of usable accuracy on an initialised engine: the position is
    blended with weight [gps_weight accuracy], the velocity with half of
    it and only above 0.5 m/s with a known course, and the blended
    position is appended to the track. *)
Lemma app_update_gps_usable s now lat lon speed course accuracy clat clon :
  is_initialized s = true ->
  current_lat s = Some clat ->
  current_lon s = Some clon ->
  0 <= accuracy < 30 ->
  let w := gps_weight accuracy in
  let new_lat := (1 - w) * clat + w * lat in
  let new_lon := (1 - w) * clon + w * lon in
  exists s',
    update_gps s now lat lon speed course accuracy = Ok s'
    /\ current_lat s' = Some new_lat
    /\ current_lon s' = Some new_lon
    /\ track s' = track s ++ [(new_lat, new_lon)]
    /\ (0 <= course -> 0.5 < speed ->
        velocity_north s'
        = (1 - w * 0.5) * velocity_north s
          + w * 0.5 * (speed * cos (radians course))
        /\ velocity_east s'
           = (1 - w * 0.5) * velocity_east s
             + w * 0.5 * (speed * sin (radians course)))
    /\ (course < 0 \/ speed <= 0.5 ->
        velocity_north s' = velocity_north s
        /\ velocity_east s' = velocity_east s).
Proof.
  intros Hi Hclat Hclon Hacc w new_lat new_lon.
  unfold update_gps. rewrite Hi. cbn [negb].
  destruct (AppFacts.remember_good_fix_frame now speed course accuracy s)
    as (He & _ & _).
  revert He. generalize (remember_good_fix now speed course accuracy s).
  intros s1 He. unfold estimate in He.
  inversion He as [[Hlat Hlon Hvn Hve Hh Hpu Hvu Ht]].
  unfold ACCURACY_THRESHOLD_DEGRADE. rewrite (usable_test accuracy Hacc).
  assert (Hlat1 : current_lat s1 = Some clat) by congruence.
  assert (Hlon1 : current_lon s1 = Some clon) by congruence.
  rewrite Hlat1, Hlon1.
  eexists; split; [ reflexivity | ].
  assert (Hyes : Rgeb course 0 && Rgtb speed 0.5 = true ->
                 0 <= course /\ 0.5 < speed).
  { intros Hv. apply andb_prop in Hv. destruct Hv as [Hc Hs].
    apply Rleb_true in Hc. apply Rltb_true in Hs. split; assumption. }
  assert (Hno : Rgeb course 0 && Rgtb speed 0.5 = false ->
                course < 0 \/ speed <= 0.5).
  { intros Hv. apply andb_false_iff in Hv. destruct Hv as [Hv | Hv];
      [ apply Rleb_false in Hv; left | apply Rltb_false in Hv; right ];
      assumption. }
  destruct (Rgeb course 0 && Rgtb speed 0.5); simpl;
    rewrite ?Ht, ?Hvn, ?Hve;
    (split; [ reflexivity | split; [ reflexivity | split;
       [ reflexivity | split ] ] ]).
  - intros _ _. split; reflexivity.
  - destruct (Hyes eq_refl). intros [Hc | Hs]; lra.
  - destruct (Hno eq_refl); intros Hc Hs; lra.
  - intros _. split; reflexivity.
Qed.

End AppFix.

Module ViewerFix.
Import Viewer.

(** The velocity after a fix of usable accuracy: blended with 0.8 of the
    position weight whenever speed and course are both known. *)
Lemma viewer_update_gps_velocity s lat lon speed course accuracy timestamp :
  0 <= accuracy < 30 ->
  let s' := update_gps s lat lon speed course accuracy timestamp in
  let w := gps_weight accuracy in
  (0 <= speed -> 0 <= course ->
   velocity_north s'
   = (1 - w * 0.8) * velocity_north s
     + w * 0.8 * (speed * cos (radians course))
   /\ velocity_east s'
      = (1 - w * 0.8) * velocity_east s
        + w * 0.8 * (speed * sin (radians course)))
  /\ (speed < 0 \/ course < 0 ->
      velocity_north s' = velocity_north s
      /\ velocity_east s' = velocity_east s).
Proof.
  intros Hacc. unfold update_gps, ACCURACY_THRESHOLD_DEGRADE.
  rewrite (usable_test accuracy Hacc).
  pose proof (ViewerFacts.viewer_remember_good_fix_frame timestamp speed course
                accuracy s) as He.
  revert He. generalize (remember_good_fix timestamp speed course accuracy s).
  intros s1 He. unfold estimate in He.
  inversion He as [[Hlat Hlon Hvn Hve Hpu Hvu Ht]].
  assert (Hyes : Rgeb speed 0 && Rgeb course 0 = true ->
                 0 <= speed /\ 0 <= course).
  { intros Hv. apply andb_prop in Hv. destruct Hv as [Hs Hc].
    apply Rleb_true in Hc. apply Rleb_true in Hs. split; assumption. }
  assert (Hno : Rgeb speed 0 && Rgeb course 0 = false ->
                speed < 0 \/ course < 0).
  { intros Hv. apply andb_false_iff in Hv. destruct Hv as [Hv | Hv];
      apply Rleb_false in Hv; [ left | right ]; assumption. }
  destruct (Rgeb speed 0 && Rgeb course 0); simpl;
    rewrite ?Hvn, ?Hve; split.
  - intros _ _. split; reflexivity.
  - destruct (Hyes eq_refl). intros [Hs | Hc]; lra.
  - destruct (Hno eq_refl); intros Hs Hc; lra.
  - intros _. split; reflexivity.
Qed.

End ViewerFix.

(** C6, as stated, fails: a fix at latitude 1000 with an accuracy of 10 m
    is not rejected.  From (35, 139) the viewer's engine moves to latitude
    517.5 and records the point. *)
Lemma out_of_range_fix_is_blended :
  let s := Viewer.init 35 139 in
  let s' := Viewer.update_gps s 1000 139 (-1) (-1) 10 (Some 1000) in
  (1000 < -90 \/ 90 < 1000)
  /\ Viewer.current_lat s' = 517.5
  /\ Viewer.current_lat s' <> Viewer.current_lat s
  /\ Viewer.track s' <> Viewer.track s.
Proof.
  intros s s'.
  assert (Hacc : 0 <= 10 < 30) by lra.
  destruct (ViewerTrack.viewer_update_gps_usable s 1000 139 (-1) (-1) 10
              (Some 1000) Hacc) as (Hlat & _ & Ht).
  fold s' in Hlat, Ht.
  assert (Hw : gps_weight 10 = 0.5) by (rewrite gps_weight_eq; lra).
  rewrite Hw in Hlat. simpl in Hlat.
  assert (H517 : Viewer.current_lat s' = 517.5) by lra.
  split; [ right; lra | ].
  split; [ exact H517 | ].
  split.
  - rewrite H517. simpl. lra.
  - rewrite Ht. simpl. discriminate.
Qed.

(** C6, amended.  [update_gps] has no test on latitude or longitude.  A
    fix of usable accuracy ([0 <= accuracy < 30]) is blended into the
    position with weight [gps_weight accuracy] and the blended point is
    appended to the track, whatever the coordinates of the fix, which are
    used as given: neither rejected nor clamped.  Only the accuracy makes
    [update_gps] skip a fix.  Both variants. *)
Theorem fix_coordinates_not_checked :
  forall (sa : App.state) (sv : Viewer.state)
         (now lat lon speed course accuracy clat clon : R)
         (timestamp : option R),
    App.is_initialized sa = true ->
    App.current_lat sa = Some clat ->
    App.current_lon sa = Some clon ->
    0 <= accuracy < 30 ->
    let w := gps_weight accuracy in
    (exists sa',
        App.update_gps sa now lat lon speed course accuracy = Ok sa'
        /\ App.current_lat sa' = Some ((1 - w) * clat + w * lat)
        /\ App.current_lon sa' = Some ((1 - w) * clon + w * lon)
        /\ App.track sa'
           = App.track sa
             ++ [((1 - w) * clat + w * lat, (1 - w) * clon + w * lon)])
    /\ (let sv' :=
          Viewer.update_gps sv lat lon speed course accuracy timestamp in
        Viewer.current_lat sv' = (1 - w) * Viewer.current_lat sv + w * lat
        /\ Viewer.current_lon sv' = (1 - w) * Viewer.current_lon sv + w * lon
        /\ Viewer.track sv'
           = Viewer.track sv
             ++ [(Viewer.current_lat sv', Viewer.current_lon sv',
                  "fused"%string)]).
Proof.
  intros sa sv now lat lon speed course accuracy clat clon timestamp
    Hi Hlat Hlon Hacc w.
  split.
  - destruct (AppFix.app_update_gps_usable sa now lat lon speed course accuracy
                clat clon Hi Hlat Hlon Hacc)
      as (sa' & Hok & Hla & Hlo & Ht & _).
    exists sa'. repeat split; assumption.
  - apply ViewerTrack.viewer_update_gps_usable; exact Hacc.
Qed.

Lemma fix_coordinates_not_checked_witness :
  (0 <= 10 < 30)
  /\ exists sa',
       App.update_gps app_first_fix 1000 1000 139 (-1) (-1) 10 = Ok sa'
       /\ App.current_lat sa'
          = Some ((1 - gps_weight 10) * 35 + gps_weight 10 * 1000).
Proof.
  assert (Hacc : 0 <= 10 < 30) by lra.
  split; [ exact Hacc | ].
  destruct (fix_coordinates_not_checked app_first_fix (Viewer.init 35 139)
              1000 1000 139 (-1) (-1) 10 35 139 (Some 1000)
              eq_refl eq_refl eq_refl Hacc)
    as [(sa' & Hok & Hla & _) _].
  exists sa'. split; [ exact Hok | exact Hla ].
Defined.

(** ** C9: the two velocity weights *)

(** C9.  For a fix of usable accuracy both variants blend the position
    with the same weight [w = 1 / (1 + accuracy / 10)].  The application
    blends the velocity given by course and speed with weight [w * 0.5],
    and only when the course is known and the speed exceeds 0.5 m/s; the
    viewer blends it with weight [w * 0.8], whenever speed and course are
    both non-negative.  Otherwise the velocity is left as it was. *)
Theorem velocity_blend_weights :
  forall (sa : App.state) (sv : Viewer.state)
         (now lat lon speed course accuracy clat clon : R)
         (timestamp : option R),
    App.is_initialized sa = true ->
    App.current_lat sa = Some clat ->
    App.current_lon sa = Some clon ->
    0 <= accuracy < 30 ->
    let w := 1 / (1 + accuracy / 10) in
    let gps_vel_north := speed * cos (radians course) in
    let gps_vel_east := speed * sin (radians course) in
    (exists sa',
        App.update_gps sa now lat lon speed course accuracy = Ok sa'
        /\ App.current_lat sa' = Some ((1 - w) * clat + w * lat)
        /\ App.current_lon sa' = Some ((1 - w) * clon + w * lon)
        /\ (0 <= course -> 0.5 < speed ->
            App.velocity_north sa'
            = (1 - w * 0.5) * App.velocity_north sa + w * 0.5 * gps_vel_north
            /\ App.velocity_east sa'
               = (1 - w * 0.5) * App.velocity_east sa
                 + w * 0.5 * gps_vel_east)
        /\ (course < 0 \/ speed <= 0.5 ->
            App.velocity_north sa' = App.velocity_north sa
            /\ App.velocity_east sa' = App.velocity_east sa))
    /\ (let sv' :=
          Viewer.update_gps sv lat lon speed course accuracy timestamp in
        Viewer.current_lat sv' = (1 - w) * Viewer.current_lat sv + w * lat
        /\ Viewer.current_lon sv' = (1 - w) * Viewer.current_lon sv + w * lon
        /\ (0 <= speed -> 0 <= course ->
            Viewer.velocity_north sv'
            = (1 - w * 0.8) * Viewer.velocity_north sv
              + w * 0.8 * gps_vel_north
            /\ Viewer.velocity_east sv'
               = (1 - w * 0.8) * Viewer.velocity_east sv
                 + w * 0.8 * gps_vel_east)
        /\ (speed < 0 \/ course < 0 ->
            Viewer.velocity_north sv' = Viewer.velocity_north sv
            /\ Viewer.velocity_east sv' = Viewer.velocity_east sv)).
Proof.
  intros sa sv now lat lon speed course accuracy clat clon timestamp
    Hi Hlat Hlon Hacc.
  rewrite <- (gps_weight_eq accuracy).
  intros w gps_vel_north gps_vel_east.
  split.
  - destruct (AppFix.app_update_gps_usable sa now lat lon speed course accuracy
                clat clon Hi Hlat Hlon Hacc)
      as (sa' & Hok & Hla & Hlo & _ & Hblend & Hkeep).
    exists sa'. repeat split; try assumption.
    + apply Hblend; assumption.
    + apply Hblend; assumption.
    + apply Hkeep; assumption.
    + apply Hkeep; assumption.
  - destruct (ViewerTrack.viewer_update_gps_usable sv lat lon speed course
                accuracy timestamp Hacc) as (Hla & Hlo & _).
    destruct (ViewerFix.viewer_update_gps_velocity sv lat lon speed course
                accuracy timestamp Hacc) as (Hblend & Hkeep).
    repeat split; try assumption.
    + apply Hblend; assumption.
    + apply Hblend; assumption.
    + apply Hkeep; assumption.
    + apply Hkeep; assumption.
Qed.

Lemma velocity_blend_weights_witness :
  (0 <= 10 < 30)
  /\ Viewer.velocity_north
       (Viewer.update_gps (Viewer.init 35 139) 35 139 0.4 90 10 (Some 1000))
     = (1 - 1 / (1 + 10 / 10) * 0.8) * 0
       + 1 / (1 + 10 / 10) * 0.8 * (0.4 * cos (radians 90))
  /\ exists sa',
       App.update_gps app_first_fix 1000 35 139 0.4 90 10 = Ok sa'
       /\ App.velocity_north sa' = 0.
Proof.
  assert (Hacc : 0 <= 10 < 30) by lra.
  split; [ exact Hacc | ].
  destruct (velocity_blend_weights app_first_fix (Viewer.init 35 139)
              1000 35 139 0.4 90 10 35 139 (Some 1000)
              eq_refl eq_refl eq_refl Hacc)
    as [(sa' & Hok & _ & _ & _ & Hkeep) (_ & _ & Hblend & _)].
  split.
  - apply Hblend; lra.
  - exists sa'. split; [ exact Hok | ].
    apply Hkeep. right; lra.
Defined.

(** ** C7: the yaw delta *)

Lemma PI_tight : 3.14159 < PI < 3.1416.
Proof.
  pose proof (PI_2_3_7_ineq 2) as H.
  unfold sum_f_R0, tg_alt, PI_2_3_7_tg, Ratan_seq in H.
  simpl in H.
  lra.
Qed.

Lemma wrap_yaw_delta_cases (d : R) :
  (PI < d /\ wrap_yaw_delta d = d - 2 * PI)
  \/ (d < - PI /\ wrap_yaw_delta d = d + 2 * PI)
  \/ (- PI <= d <= PI /\ wrap_yaw_delta d = d).
Proof.
  unfold wrap_yaw_delta, Rgtb, Rltb.
  destruct (Rlt_dec PI d) as [Hhi | Hhi].
  - left. split; [ exact Hhi | reflexivity ].
  - destruct (Rlt_dec d (- PI)) as [Hlo | Hlo].
    + right; left. split; [ exact Hlo | reflexivity ].
    + right; right. split; [ lra | reflexivity ].
Qed.

(** The inertial branch adds the wrapped yaw delta to the heading. *)
Lemma app_ins_branch_heading (s : App.state) user_accel roll pitch yaw ly dt :
  App.last_yaw s = Some ly ->
  App.current_heading
    (fst (fst (fst (App.ins_branch s user_accel
                      (Some (roll, pitch, yaw)) dt))))
  = App.current_heading s + wrap_yaw_delta (yaw - ly).
Proof.
  intros Hly. unfold App.ins_branch, App.integrate_yaw. rewrite Hly.
  branch_cases; reflexivity.
Qed.

(** C7, as stated, fails.  A raw delta of exactly [-PI] stays [-PI], which
    is outside (-PI, PI]; a raw delta of 10 is brought back by one turn
    only and stays above [PI]; and for the yaw readings 3.13 then -3.13
    the wrapped delta is positive, about +0.0232, not about -0.02. *)
Lemma yaw_wrap_counterexample :
  wrap_yaw_delta (- PI) = - PI
  /\ PI < wrap_yaw_delta 10
  /\ 0.0231 < wrap_yaw_delta (-3.13 - 3.13) < 0.0233.
Proof.
  pose proof PI_tight as HPI.
  repeat split.
  - destruct (wrap_yaw_delta_cases (- PI)) as [[H _] | [[H _] | [_ H]]];
      [ lra | lra | exact H ].
  - destruct (wrap_yaw_delta_cases 10) as [[_ H] | [[H _] | [H _]]];
      [ rewrite H; lra | lra | lra ].
  - destruct (wrap_yaw_delta_cases (-3.13 - 3.13))
      as [[H _] | [[_ H] | [H _]]]; [ lra | rewrite H; lra | lra ].
  - destruct (wrap_yaw_delta_cases (-3.13 - 3.13))
      as [[H _] | [[_ H] | [H _]]]; [ lra | rewrite H; lra | lra ].
Qed.

(** C7, amended.  A raw yaw delta [d] with [-3 PI < d <= 3 PI] other than
    [-PI] is mapped into (-PI, PI], by adding or subtracting at most one
    turn; the difference of two yaw readings in [-PI, PI] is mapped into
    [-PI, PI].  For the yaw readings 3.13 then -3.13 the wrapped delta is
    [2 PI - 6.26], about +0.0232, and this is what the inertial branch adds
    to the heading. *)
Theorem yaw_delta_wrapped :
  forall (d yaw0 yaw1 : R) (s : App.state)
         (user_accel : option triple) (roll pitch dt : R),
    -3 * PI < d <= 3 * PI ->
    d <> - PI ->
    - PI <= yaw0 <= PI ->
    - PI <= yaw1 <= PI ->
    App.last_yaw s = Some 3.13 ->
    (- PI < wrap_yaw_delta d <= PI
     /\ (wrap_yaw_delta d = d \/ wrap_yaw_delta d = d - 2 * PI
         \/ wrap_yaw_delta d = d + 2 * PI))
    /\ - PI <= wrap_yaw_delta (yaw1 - yaw0) <= PI
    /\ wrap_yaw_delta (-3.13 - 3.13) = 2 * PI - 6.26
    /\ 0.0231 < wrap_yaw_delta (-3.13 - 3.13) < 0.0233
    /\ App.current_heading
         (fst (fst (fst (App.ins_branch s user_accel
                           (Some (roll, pitch, -3.13)) dt))))
       = App.current_heading s + (2 * PI - 6.26).
Proof.
  intros d yaw0 yaw1 s user_accel roll pitch dt Hd Hne Hy0 Hy1 Hly.
  pose proof PI_tight as HPI.
  assert (Hex : wrap_yaw_delta (-3.13 - 3.13) = 2 * PI - 6.26).
  { destruct (wrap_yaw_delta_cases (-3.13 - 3.13))
      as [[H _] | [[_ H] | [H _]]]; [ lra | rewrite H; lra | lra ]. }
  split; [ split | split; [ | split; [ | split ] ] ].
  - destruct (wrap_yaw_delta_cases d) as [[H ->] | [[H ->] | [H ->]]]; lra.
  - destruct (wrap_yaw_delta_cases d) as [[_ H] | [[_ H] | [_ H]]]; auto.
  - destruct (wrap_yaw_delta_cases (yaw1 - yaw0))
      as [[H ->] | [[H ->] | [H ->]]]; lra.
  - exact Hex.
  - rewrite Hex. lra.
  - rewrite (app_ins_branch_heading s user_accel roll pitch (-3.13) 3.13 dt
               Hly).
    rewrite Hex. reflexivity.
Qed.

Lemma yaw_delta_wrapped_witness :
  wrap_yaw_delta (-3.13 - 3.13) = 2 * PI - 6.26
  /\ - PI < wrap_yaw_delta 4 <= PI.
Proof.
  pose proof PI_tight as HPI.
  assert (Hd : -3 * PI < 4 <= 3 * PI) by lra.
  assert (Hne : 4 <> - PI) by lra.
  assert (Hy0 : - PI <= 3.13 <= PI) by lra.
  assert (Hy1 : - PI <= -3.13 <= PI) by lra.
  destruct (yaw_delta_wrapped 4 3.13 (-3.13) app_yaw_313 None 0 0 0.1
              Hd Hne Hy0 Hy1 eq_refl)
    as [[Hin _] [_ [Hex _]]].
  split; [ exact Hex | exact Hin ].
Defined.

(** ** C8 and C10: altitude fusion *)

Module AltitudeFacts.
Import AltitudeFusion.

Lemma update_unanchored_ignored s gps_alt va baro az dt :
  gps_altitude s = None -> ignored_alt gps_alt ->
  update s gps_alt va baro az dt = (s, None).
Proof.
  intros Hs [-> | ->]; unfold update; rewrite Hs; [ reflexivity | ].
  assert (H0 : Rneqb 0 0 = false) by (apply Rneqb_false; reflexivity).
  rewrite H0. reflexivity.
Qed.

Lemma update_unanchored_valid s a va baro az dt :
  gps_altitude s = None -> a <> 0 ->
  update s (Some a) va baro az dt
  = ({| gps_altitude := Some a;
        baro_reference :=
          Some (match baro with Some b => b | None => 0 end);
        fused_altitude := Some a;
        vertical_velocity := vertical_velocity s |},
     Some a).
Proof.
  intros Hs Ha. unfold update. rewrite Hs.
  assert (H0 : Rneqb a 0 = true) by (apply Rneqb_true; exact Ha).
  rewrite H0. reflexivity.
Qed.

(** With a barometric sample, an anchored object returns the satellite
    reference plus the barometric change since the reference. *)
Lemma update_anchored_baro s g b0 gps_alt va b az dt :
  anchored s g b0 ->
  snd (update s gps_alt va (Some b) az dt) = Some (g + (b - b0)).
Proof.
  intros [Hg Hb]. unfold update. rewrite Hg, Hb.
  branch_cases; reflexivity.
Qed.

(** An anchored object stays anchored. *)
Lemma update_keeps_anchored s g b0 gps_alt va baro az dt :
  anchored s g b0 ->
  exists g' b0', anchored (fst (update s gps_alt va baro az dt)) g' b0'.
Proof.
  intros [Hg Hb]. destruct s as [g1 b1 f1 v1]. simpl in Hg, Hb. subst.
  unfold update, anchored. simpl.
  branch_cases; simpl; eexists; eexists; split; reflexivity.
Qed.

(** Without a GPS altitude the two references do not move. *)
Lemma update_no_gps_keeps_references s g b0 va baro az dt :
  anchored s g b0 ->
  anchored (fst (update s None va baro az dt)) g b0.
Proof.
  intros [Hg Hb]. destruct s as [g1 b1 f1 v1]. simpl in Hg, Hb. subst.
  unfold update, anchored. simpl.
  branch_cases; simpl; split; reflexivity.
Qed.

Lemma run_no_gps_keeps_references cs :
  forall s g b0,
    Forall (fun c => c_gps_alt c = None) cs ->
    anchored s g b0 -> anchored (fst (run s cs)) g b0.
Proof.
  induction cs as [ | c cs IH]; intros s g b0 Hcs Hs; [ exact Hs | ].
  inversion Hcs as [ | c' cs' Hc Hcs' ]; subst.
  simpl. unfold step. rewrite Hc.
  pose proof (update_no_gps_keeps_references s g b0 (c_gps_v_acc c)
                (c_baro_relative c) (c_accel_z c) (c_dt c) Hs) as Hs1.
  destruct (update s None (c_gps_v_acc c) (c_baro_relative c)
              (c_accel_z c) (c_dt c)) as [s1 r].
  simpl in Hs1. specialize (IH s1 g b0 Hcs' Hs1).
  destruct (run s1 cs) as [s2 rs]. exact IH.
Qed.

(** Before the first valid GPS altitude every call returns [None] and the
    object stays as created. *)
Lemma run_unanchored cs :
  Forall (fun c => ignored_alt (c_gps_alt c)) cs ->
  run init cs = (init, repeat None (List.length cs)).
Proof.
  induction cs as [ | c cs IH]; intros Hcs; [ reflexivity | ].
  inversion Hcs as [ | c' cs' Hc Hcs' ]; subst.
  simpl. unfold step.
  rewrite (update_unanchored_ignored init (c_gps_alt c) (c_gps_v_acc c)
             (c_baro_relative c) (c_accel_z c) (c_dt c) eq_refl Hc).
  rewrite (IH Hcs'). reflexivity.
Qed.

(** A reachable object is as created, or anchored. *)
Lemma reachable_init_or_anchored s :
  reachable s -> s = init \/ exists g b0, anchored s g b0.
Proof.
  induction 1 as [ | s ga va b az dt Hr [-> | (g & b0 & Ha)]].
  - left; reflexivity.
  - destruct ga as [a | ].
    + destruct (Req_dec_T a 0) as [-> | Hne].
      * left. rewrite update_unanchored_ignored;
          [ reflexivity | reflexivity | right; reflexivity ].
      * right. rewrite update_unanchored_valid by easy.
        eexists; eexists; split; reflexivity.
    + left. rewrite update_unanchored_ignored;
        [ reflexivity | reflexivity | left; reflexivity ].
  - right. eapply update_keeps_anchored; eassumption.
Qed.

End AltitudeFacts.

(** C8.  Until the first valid GPS altitude (present and not 0) every call
    of [update] returns [None].  The call that brings the first valid
    altitude sets both references, the barometric one to the barometer
    reading or to 0 when there is none, and returns the altitude.  From
    then on a call with a barometer reading [b] returns the GPS reference
    plus [b] minus the barometric reference.  After an anchor at 100 m and
    any calls without GPS altitude, a barometer reading 10 m above the
    anchored one gives 110 m. *)
Theorem altitude_anchor_then_baro :
  forall (cs cs' : list AltitudeFusion.call) (s : AltitudeFusion.state)
         (a g b : R) (gps_alt va baro az : option R) (dt : R),
    Forall (fun c => AltitudeFusion.ignored_alt (AltitudeFusion.c_gps_alt c))
      cs ->
    a <> 0 ->
    AltitudeFusion.reachable s ->
    AltitudeFusion.gps_altitude s = Some g ->
    Forall (fun c => AltitudeFusion.c_gps_alt c = None) cs' ->
    AltitudeFusion.run AltitudeFusion.init cs
    = (AltitudeFusion.init, repeat None (List.length cs))
    /\ AltitudeFusion.update AltitudeFusion.init (Some a) va baro az dt
       = ({| AltitudeFusion.gps_altitude := Some a;
             AltitudeFusion.baro_reference :=
               Some (match baro with Some x => x | None => 0 end);
             AltitudeFusion.fused_altitude := Some a;
             AltitudeFusion.vertical_velocity := 0 |},
          Some a)
    /\ (exists b0,
          AltitudeFusion.baro_reference s = Some b0
          /\ snd (AltitudeFusion.update s gps_alt va (Some b) az dt)
             = Some (g + (b - b0)))
    /\ (let b0 := match baro with Some x => x | None => 0 end in
        let s1 :=
          fst (AltitudeFusion.update AltitudeFusion.init
                 (Some 100) va baro az dt) in
        let s2 := fst (AltitudeFusion.run s1 cs') in
        snd (AltitudeFusion.update s2 None va (Some (b0 + 10)) az dt)
        = Some 110).
Proof.
  intros cs cs' s a g b gps_alt va baro az dt Hcs Ha Hr Hg Hcs'.
  split; [ | split; [ | split ] ].
  - apply AltitudeFacts.run_unanchored; exact Hcs.
  - apply AltitudeFacts.update_unanchored_valid; [ reflexivity | exact Ha ].
  - destruct (AltitudeFacts.reachable_init_or_anchored s Hr)
      as [-> | (g' & b0 & Hanch)]; [ discriminate | ].
    assert (g' = g) by (destruct Hanch; congruence). subst g'.
    exists b0. split; [ apply Hanch | ].
    apply AltitudeFacts.update_anchored_baro; exact Hanch.
  - intros b0 s1 s2.
    assert (H1 : AltitudeFusion.anchored s1 100 b0).
    { unfold s1.
      rewrite AltitudeFacts.update_unanchored_valid;
        [ split; reflexivity | reflexivity | lra ]. }
    assert (H2 : AltitudeFusion.anchored s2 100 b0)
      by (apply AltitudeFacts.run_no_gps_keeps_references; assumption).
    rewrite (AltitudeFacts.update_anchored_baro s2 100 b0 None va (b0 + 10)
               az dt H2).
    f_equal. lra.
Qed.

Lemma altitude_anchor_then_baro_witness :
  snd (AltitudeFusion.update altitude_anchored_100 None None (Some 12)
         None 0.1)
  = Some (100 + (12 - 2)).
Proof.
  assert (Hne : 100 <> 0) by lra.
  assert (Hr : AltitudeFusion.reachable altitude_anchored_100)
    by (apply AltitudeFusion.reachable_update,
          AltitudeFusion.reachable_init).
  assert (Hg : AltitudeFusion.gps_altitude altitude_anchored_100 = Some 100).
  { unfold altitude_anchored_100.
    rewrite AltitudeFacts.update_unanchored_valid;
      [ reflexivity | reflexivity | exact Hne ]. }
  assert (Hb : AltitudeFusion.baro_reference altitude_anchored_100 = Some 2).
  { unfold altitude_anchored_100.
    rewrite AltitudeFacts.update_unanchored_valid;
      [ reflexivity | reflexivity | exact Hne ]. }
  assert (Hcs : Forall
                  (fun c =>
                     AltitudeFusion.ignored_alt (AltitudeFusion.c_gps_alt c))
                  [AltitudeFusion.mkcall (Some 0) None (Some 2) None 0.1])
    by (constructor; [ right; reflexivity | constructor ]).
  destruct (altitude_anchor_then_baro
              [AltitudeFusion.mkcall (Some 0) None (Some 2) None 0.1] []
              altitude_anchored_100 100 100 12 None None (Some 2) None 0.1
              Hcs Hne Hr Hg (Forall_nil _))
    as (_ & _ & (b0 & Hb0 & Hret) & _).
  rewrite Hb in Hb0. injection Hb0 as <-. exact Hret.
Defined.

(** C10.  A GPS altitude of exactly 0 is treated like an absent one by the
    anchoring and by the fallback: on an object not yet anchored the call
    returns [None] and changes nothing; on an anchored object, without a
    barometer reading, it leaves the fused altitude as it was and returns
    it, as a call without GPS altitude does. *)
Theorem zero_altitude_is_ignored :
  forall (s0 s : AltitudeFusion.state) (g : R)
         (va baro az : option R) (dt : R),
    AltitudeFusion.gps_altitude s0 = None ->
    AltitudeFusion.gps_altitude s = Some g ->
    AltitudeFusion.update s0 (Some 0) va baro az dt = (s0, None)
    /\ AltitudeFusion.update s0 None va baro az dt = (s0, None)
    /\ AltitudeFusion.fused_altitude
         (fst (AltitudeFusion.update s (Some 0) va None az dt))
       = AltitudeFusion.fused_altitude s
    /\ snd (AltitudeFusion.update s (Some 0) va None az dt)
       = AltitudeFusion.fused_altitude s
    /\ snd (AltitudeFusion.update s (Some 0) va None az dt)
       = snd (AltitudeFusion.update s None va None az dt).
Proof.
  intros s0 s g va baro az dt Hs0 Hs.
  assert (H0 : Rneqb 0 0 = false) by (apply Rneqb_false; reflexivity).
  split; [ | split ].
  - apply AltitudeFacts.update_unanchored_ignored;
      [ exact Hs0 | right; reflexivity ].
  - apply AltitudeFacts.update_unanchored_ignored;
      [ exact Hs0 | left; reflexivity ].
  - destruct s as [g1 b1 f1 v1]. simpl in Hs. subst g1.
    unfold AltitudeFusion.update. simpl. rewrite H0.
    branch_cases; simpl; repeat split; reflexivity.
Qed.

Lemma zero_altitude_is_ignored_witness :
  AltitudeFusion.update AltitudeFusion.init (Some 0) (Some 5) (Some 2)
    None 0.1
  = (AltitudeFusion.init, None).
Proof.
  apply (zero_altitude_is_ignored AltitudeFusion.init
           {| AltitudeFusion.gps_altitude := Some 100;
              AltitudeFusion.baro_reference := Some 2;
              AltitudeFusion.fused_altitude := Some 100;
              AltitudeFusion.vertical_velocity := 0 |}
           100 (Some 5) (Some 2) None 0.1 eq_refl eq_refl).
Defined.

(** ** The speed limit of the inertial branch *)

Lemma clamp_norm (a b : R) :
  10.0 < sqrt (a ^ 2 + b ^ 2) ->
  sqrt ((a * (10.0 / sqrt (a ^ 2 + b ^ 2))) ^ 2
        + (b * (10.0 / sqrt (a ^ 2 + b ^ 2))) ^ 2) = 10.
Proof.
  intros Hsp.
  set (sp := sqrt (a ^ 2 + b ^ 2)) in *.
  assert (Hnn : 0 <= a ^ 2 + b ^ 2) by nra.
  assert (Hsq : sp * sp = a ^ 2 + b ^ 2) by (apply sqrt_sqrt; exact Hnn).
  assert (Hpos : 0 < sp) by lra.
  replace 10.0 with 10 by lra.
  replace ((a * (10 / sp)) ^ 2 + (b * (10 / sp)) ^ 2) with (10 * 10).
  - apply sqrt_square; lra.
  - replace ((a * (10 / sp)) ^ 2 + (b * (10 / sp)) ^ 2)
      with ((a ^ 2 + b ^ 2) * (10 / sp) ^ 2) by (field; lra).
    rewrite <- Hsq. field. lra.
Qed.

Lemma clamped_speed (a b : R) :
  let speed := sqrt (a ^ 2 + b ^ 2) in
  let scale := 10.0 / speed in
  sqrt ((if Rgtb speed 10.0 then a * scale else a) ^ 2
        + (if Rgtb speed 10.0 then b * scale else b) ^ 2) <= 10.
Proof.
  intros speed scale.
  destruct (Rgtb speed 10.0) eqn:H.
  - apply Rltb_true in H. unfold scale, speed.
    rewrite clamp_norm by exact H. lra.
  - apply Rltb_false in H. unfold speed in H. lra.
Qed.







(** ** The mode after a fix *)

Lemma good_test (accuracy : R) :
  0 <= accuracy < 15 -> Rgeb accuracy 0 && Rltb accuracy 15.0 = true.
Proof. intros H; cmp_cases. Qed.

Lemma fair_test (accuracy : R) :
  15 <= accuracy < 30 -> Rgeb accuracy 0 && Rltb accuracy 15.0 = false.
Proof. intros H; cmp_cases. Qed.

Lemma known_motion_test (course speed : R) :
  0 <= course -> 0.3 < speed -> Rgeb course 0 && Rgtb speed 0.3 = true.
Proof. intros Hc Hs; cmp_cases. Qed.

Lemma course_speed_norm (speed a : R) :
  (speed * cos a) ^ 2 + (speed * sin a) ^ 2 = speed ^ 2.
Proof.
  pose proof (sin2_cos2 a) as H. unfold Rsqr in H.
  replace ((speed * cos a) ^ 2 + (speed * sin a) ^ 2)
    with (speed ^ 2 * (sin a * sin a + cos a * cos a)) by ring.
  rewrite H. ring.
Qed.

(** X2.  A fix of good accuracy ([0 <= accuracy < 15]) always leaves the
    engine out of memory mode, with the time of the fix recorded as the
    last good one, so that the next prediction cannot be a memory
    extrapolation.  Both variants. *)
Theorem good_fix_leaves_memory_mode :
  forall (sa : App.state) (sv : Viewer.state)
         (now lat lon speed course accuracy clat clon : R)
         (timestamp : option R),
    App.is_initialized sa = true ->
    App.current_lat sa = Some clat ->
    App.current_lon sa = Some clon ->
    0 <= accuracy < 15 ->
    (exists sa',
        App.update_gps sa now lat lon speed course accuracy = Ok sa'
        /\ App.is_memory_mode sa' = false
        /\ App.last_good_gps_time sa' = Some now
        /\ forall now', App.use_memory_track sa' now' = false)
    /\ (let sv' :=
          Viewer.update_gps sv lat lon speed course accuracy timestamp in
        Viewer.is_memory_mode sv' = false
        /\ Viewer.last_good_gps_time sv' = timestamp
        /\ forall t, Viewer.use_memory_track sv' t = false).
Proof.
  intros sa sv now lat lon speed course accuracy clat clon timestamp
    Hi Hlat Hlon Hacc.
  assert (Hus : 0 <= accuracy < 30) by lra.
  pose proof (good_test accuracy Hacc) as Hgood.
  pose proof (usable_test accuracy Hus) as Husable.
  split.
  - unfold App.update_gps, App.remember_good_fix.
    unfold App.ACCURACY_THRESHOLD_GOOD, App.ACCURACY_THRESHOLD_DEGRADE.
    rewrite Hi, Hgood, Husable. cbn [negb].
    destruct (Rgeb course 0 && Rgtb speed 0.3);
      destruct (App.is_memory_mode sa) eqn:Hm; simpl;
      rewrite ?Hm; simpl; rewrite Hlat, Hlon;
      (eexists; split; [ reflexivity | ]);
      destruct (Rgeb course 0 && Rgtb speed 0.5); simpl;
      rewrite ?Hm; repeat split; try reflexivity;
      intros now'; unfold App.use_memory_track; simpl; rewrite ?Hm;
      reflexivity.
  - unfold Viewer.update_gps, Viewer.remember_good_fix.
    unfold Viewer.ACCURACY_THRESHOLD_GOOD, Viewer.ACCURACY_THRESHOLD_DEGRADE.
    rewrite Hgood, Husable.
    destruct (Rgeb course 0 && Rgtb speed 0.3);
      destruct (Viewer.is_memory_mode sv) eqn:Hm; simpl;
      rewrite ?Hm; simpl;
      destruct (Rgeb speed 0 && Rgeb course 0); simpl;
      rewrite ?Hm; repeat split; try reflexivity;
      intros t; unfold Viewer.use_memory_track; simpl; rewrite ?Hm;
      reflexivity.
Qed.

Lemma good_fix_leaves_memory_mode_witness :
  (0 <= 5 < 15)
  /\ Viewer.is_memory_mode
       (Viewer.update_gps
          (viewer_moving |> Viewer.in_memory_mode_since (Some 100))
          35 139 2 90 5 (Some 130))
     = false.
Proof.
  assert (Hacc : 0 <= 5 < 15) by lra.
  split; [ exact Hacc | ].
  apply (good_fix_leaves_memory_mode
           (app_moving |> App.in_memory_mode_since 100)
           (viewer_moving |> Viewer.in_memory_mode_since (Some 100))
           130 35 139 2 90 5 35 139 (Some 130)
           eq_refl eq_refl eq_refl Hacc).
Defined.


(** X3.  A fix of good accuracy with a known course and a speed above
    0.3 m/s is remembered: the remembered speed is the speed of the fix,
    the remembered heading its course in radians, and the remembered
    north/east velocity has that speed as its norm.  Both variants. *)
Theorem good_fix_is_remembered :
  forall (sa : App.state) (sv : Viewer.state)
         (now lat lon speed course accuracy clat clon : R)
         (timestamp : option R),
    App.is_initialized sa = true ->
    App.current_lat sa = Some clat ->
    App.current_lon sa = Some clon ->
    0 <= accuracy < 15 ->
    0 <= course ->
    0.3 < speed ->
    (exists sa',
        App.update_gps sa now lat lon speed course accuracy = Ok sa'
        /\ App.memory_speed sa' = speed
        /\ App.memory_heading sa' = radians course
        /\ App.memory_velocity_north sa' ^ 2
           + App.memory_velocity_east sa' ^ 2 = speed ^ 2)
    /\ (let sv' :=
          Viewer.update_gps sv lat lon speed course accuracy timestamp in
        Viewer.memory_speed sv' = speed
        /\ Viewer.memory_heading sv' = radians course
        /\ Viewer.memory_velocity_north sv' ^ 2
           + Viewer.memory_velocity_east sv' ^ 2 = speed ^ 2).
Proof.
  intros sa sv now lat lon speed course accuracy clat clon timestamp
    Hi Hlat Hlon Hacc Hc Hs.
  assert (Hus : 0 <= accuracy < 30) by lra.
  pose proof (good_test accuracy Hacc) as Hgood.
  pose proof (usable_test accuracy Hus) as Husable.
  pose proof (known_motion_test course speed Hc Hs) as Hknown.
  pose proof (course_speed_norm speed (radians course)) as Hnorm.
  split.
  - unfold App.update_gps, App.remember_good_fix.
    unfold App.ACCURACY_THRESHOLD_GOOD, App.ACCURACY_THRESHOLD_DEGRADE.
    rewrite Hi, Hgood, Husable, Hknown. cbn [negb].
    destruct (App.is_memory_mode sa) eqn:Hm; simpl;
      rewrite ?Hm; simpl; rewrite Hlat, Hlon;
      (eexists; split; [ reflexivity | ]);
      destruct (Rgeb course 0 && Rgtb speed 0.5); simpl;
      (split; [ reflexivity | split; [ reflexivity | ] ]);
      simpl in Hnorm; exact Hnorm.
  - unfold Viewer.update_gps, Viewer.remember_good_fix.
    unfold Viewer.ACCURACY_THRESHOLD_GOOD, Viewer.ACCURACY_THRESHOLD_DEGRADE.
    rewrite Hgood, Husable, Hknown.
    destruct (Viewer.is_memory_mode sv) eqn:Hm; simpl;
      rewrite ?Hm; simpl;
      destruct (Rgeb speed 0 && Rgeb course 0); simpl;
      (split; [ reflexivity | split; [ reflexivity | ] ]);
      simpl in Hnorm; exact Hnorm.
Qed.

Lemma good_fix_is_remembered_witness :
  Viewer.memory_speed
    (Viewer.update_gps (Viewer.init 35 139) 35 139 2 90 5 (Some 130))
  = 2.
Proof.
  assert (Hacc : 0 <= 5 < 15) by lra.
  assert (Hc : 0 <= 90) by lra.
  assert (Hs : 0.3 < 2) by lra.
  apply (good_fix_is_remembered app_first_fix (Viewer.init 35 139)
           130 35 139 2 90 5 35 139 (Some 130)
           eq_refl eq_refl eq_refl Hacc Hc Hs).
Defined.

(** X4.  A fix in the band [15 <= accuracy < 30] is used for the position
    but changes neither the mode nor what is remembered: memory flag, entry
    time, remembered speed, heading and velocity, and the time of the last
    good fix stay as they were.  Both variants. *)
Theorem fair_fix_keeps_mode :
  forall (sa : App.state) (sv : Viewer.state)
         (now lat lon speed course accuracy clat clon : R)
         (timestamp : option R),
    App.is_initialized sa = true ->
    App.current_lat sa = Some clat ->
    App.current_lon sa = Some clon ->
    15 <= accuracy < 30 ->
    (exists sa',
        App.update_gps sa now lat lon speed course accuracy = Ok sa'
        /\ App.current_lat sa'
           = Some ((1 - gps_weight accuracy) * clat
                   + gps_weight accuracy * lat)
        /\ App.is_memory_mode sa' = App.is_memory_mode sa
        /\ App.memory_mode_start_time sa' = App.memory_mode_start_time sa
        /\ App.memory_speed sa' = App.memory_speed sa
        /\ App.memory_heading sa' = App.memory_heading sa
        /\ App.memory_velocity_north sa' = App.memory_velocity_north sa
        /\ App.memory_velocity_east sa' = App.memory_velocity_east sa
        /\ App.last_good_gps_time sa' = App.last_good_gps_time sa)
    /\ (let sv' :=
          Viewer.update_gps sv lat lon speed course accuracy timestamp in
        Viewer.current_lat sv'
        = (1 - gps_weight accuracy) * Viewer.current_lat sv
          + gps_weight accuracy * lat
        /\ Viewer.is_memory_mode sv' = Viewer.is_memory_mode sv
        /\ Viewer.memory_mode_start_time sv'
           = Viewer.memory_mode_start_time sv
        /\ Viewer.memory_speed sv' = Viewer.memory_speed sv
        /\ Viewer.memory_heading sv' = Viewer.memory_heading sv
        /\ Viewer.memory_velocity_north sv' = Viewer.memory_velocity_north sv
        /\ Viewer.memory_velocity_east sv' = Viewer.memory_velocity_east sv
        /\ Viewer.last_good_gps_time sv' = Viewer.last_good_gps_time sv).
Proof.
  intros sa sv now lat lon speed course accuracy clat clon timestamp
    Hi Hlat Hlon Hacc.
  assert (Hus : 0 <= accuracy < 30) by lra.
  pose proof (fair_test accuracy Hacc) as Hfair.
  pose proof (usable_test accuracy Hus) as Husable.
  split.
  - unfold App.update_gps, App.remember_good_fix.
    unfold App.ACCURACY_THRESHOLD_GOOD, App.ACCURACY_THRESHOLD_DEGRADE.
    rewrite Hi, Hfair, Husable. cbn [negb]. rewrite Hlat, Hlon.
    eexists; split; [ reflexivity | ].
    destruct (Rgeb course 0 && Rgtb speed 0.5); simpl;
      repeat split; reflexivity.
  - unfold Viewer.update_gps, Viewer.remember_good_fix.
    unfold Viewer.ACCURACY_THRESHOLD_GOOD, Viewer.ACCURACY_THRESHOLD_DEGRADE.
    rewrite Hfair, Husable.
    destruct (Rgeb speed 0 && Rgeb course 0); simpl;
      repeat split; reflexivity.
Qed.

Lemma fair_fix_keeps_mode_witness :
  (15 <= 20 < 30)
  /\ Viewer.is_memory_mode
       (Viewer.update_gps
          (viewer_moving |> Viewer.in_memory_mode_since (Some 100))
          35 139 2 90 20 (Some 130))
     = true.
Proof.
  assert (Hacc : 15 <= 20 < 30) by lra.
  split; [ exact Hacc | ].
  apply (fair_fix_keeps_mode
           (app_moving |> App.in_memory_mode_since 100)
           (viewer_moving |> Viewer.in_memory_mode_since (Some 100))
           130 35 139 2 90 20 35 139 (Some 130)
           eq_refl eq_refl eq_refl Hacc).
Defined.


(** ** Entering memory mode and extrapolating from memory *)

Lemma app_poor_fix_enters s now lat lon speed course accuracy :
  App.is_initialized s = true ->
  accuracy < 0 \/ 30 <= accuracy ->
  App.is_memory_mode s = false ->
  0.3 < App.memory_speed s ->
  App.update_gps s now lat lon speed course accuracy
  = Ok (App.in_memory_mode_since now s).
Proof.
  intros Hi Hacc Hm Hs.
  unfold App.update_gps, App.remember_good_fix, App.enter_memory_mode.
  unfold App.ACCURACY_THRESHOLD_GOOD, App.ACCURACY_THRESHOLD_DEGRADE.
  rewrite Hi, (degraded_not_good accuracy Hacc), (degraded_test accuracy Hacc).
  rewrite Hm. cbn [negb andb].
  assert (Hg : Rgtb (App.memory_speed s) 0.3 = true)
    by (apply Rltb_true; exact Hs).
  rewrite Hg. reflexivity.
Qed.

Lemma viewer_poor_fix_enters s lat lon speed course accuracy timestamp :
  accuracy < 0 \/ 30 <= accuracy ->
  Viewer.is_memory_mode s = false ->
  0.3 < Viewer.memory_speed s ->
  Viewer.update_gps s lat lon speed course accuracy timestamp
  = Viewer.in_memory_mode_since timestamp s.
Proof.
  intros Hacc Hm Hs.
  unfold Viewer.update_gps, Viewer.remember_good_fix,
    Viewer.enter_memory_mode.
  unfold Viewer.ACCURACY_THRESHOLD_GOOD, Viewer.ACCURACY_THRESHOLD_DEGRADE.
  rewrite (degraded_not_good accuracy Hacc), (degraded_test accuracy Hacc).
  rewrite Hm. cbn [negb andb].
  assert (Hg : Rgtb (Viewer.memory_speed s) 0.3 = true)
    by (apply Rltb_true; exact Hs).
  rewrite Hg. reflexivity.
Qed.

(** The memory branch of the viewer decays the remembered speed and
    leaves the inertial velocity alone. *)
Lemma viewer_memory_branch_decay s attitude dt :
  Viewer.memory_speed (Viewer.memory_branch s attitude dt)
  = Viewer.memory_speed s * 0.98
  /\ Viewer.velocity_north (Viewer.memory_branch s attitude dt)
     = Viewer.velocity_north s
  /\ Viewer.velocity_east (Viewer.memory_branch s attitude dt)
     = Viewer.velocity_east s
  /\ Viewer.is_memory_mode (Viewer.memory_branch s attitude dt)
     = Viewer.is_memory_mode s.
Proof.
  unfold Viewer.memory_branch, Viewer.MEMORY_VELOCITY_DECAY.
  destruct attitude as [[[roll pitch] yaw] | ]; simpl; easy.
Qed.

(** A memory step of the application's engine. *)
Lemma app_update_ins_memory s now user_accel attitude dt :
  App.wf s -> App.is_initialized s = true ->
  App.use_memory_track s now = true ->
  exists s' r,
    App.update_ins s now user_accel attitude dt = Ok (s', Some r)
    /\ App.r_mode r = "memory_track"%string
    /\ App.r_memory_elapsed r = App.memory_elapsed s now
    /\ App.r_speed r = App.memory_speed s * 0.98
    /\ App.memory_speed s' = App.memory_speed s * 0.98
    /\ App.velocity_north s' = App.velocity_north s
    /\ App.velocity_east s' = App.velocity_east s.
Proof.
  unfold App.wf, App.update_ins. intros Hwf Hi Hm. rewrite Hi in *.
  cbn [negb]. simpl in Hwf. destruct Hwf as [Hla Hlo].
  destruct (App.current_lat s) as [clat | ] eqn:Elat; [ | congruence ].
  rewrite Hm.
  destruct (App.memory_branch s attitude) as [[[s1 vn] ve] sp] eqn:E.
  pose proof (AppBranches.memory_branch_untouched s attitude s1 vn ve sp E)
    as (_ & H2 & _).
  assert (Hdecay : sp = App.memory_speed s * 0.98
                   /\ App.memory_speed s1 = App.memory_speed s * 0.98
                   /\ App.velocity_north s1 = App.velocity_north s
                   /\ App.velocity_east s1 = App.velocity_east s).
  { revert E. unfold App.memory_branch, App.integrate_yaw,
      App.MEMORY_VELOCITY_DECAY.
    destruct attitude as [[[roll pitch] yaw] | ];
      [ destruct (App.last_yaw s) | ];
      intros E; inversion E; simpl; easy. }
  destruct Hdecay as (Hsp & Hms & Hvn & Hve).
  unfold App.finish_ins.
  destruct (App.current_lon s1) as [clon | ] eqn:Elon; [ | congruence ].
  eexists; eexists; split; [ reflexivity | ].
  simpl. repeat split; assumption.
Qed.

(** X5.  Memory extrapolation in action.  On an engine that is not in
    memory mode and remembers a speed above 0.3 m/s, a fix of negative
    accuracy or of 30 m or more, taken at a non-zero time [t], switches to
    memory mode with entry time [t]; a prediction made less than 60 s
    later is then a memory step: it is recorded as such ([memory] tag in
    the viewer, mode [memory_track] in the application), multiplies the
    remembered speed by 0.98 and leaves the inertial velocity as it
    was. *)
Theorem poor_fix_then_memory_step :
  forall (sa : App.state) (sv : Viewer.state)
         (t t' lat lon speed course accuracy dt : R)
         (user_accel attitude : option triple),
    App.wf sa ->
    App.is_initialized sa = true ->
    App.is_memory_mode sa = false ->
    0.3 < App.memory_speed sa ->
    Viewer.is_memory_mode sv = false ->
    0.3 < Viewer.memory_speed sv ->
    accuracy < 0 \/ 30 <= accuracy ->
    t <> 0 -> t' <> 0 -> t' - t < 60 -> 0 < dt ->
    (exists s1 s2 r,
        App.update_gps sa t lat lon speed course accuracy = Ok s1
        /\ App.is_memory_mode s1 = true
        /\ App.memory_mode_start_time s1 = Some t
        /\ App.update_ins s1 t' user_accel attitude dt = Ok (s2, Some r)
        /\ App.r_mode r = "memory_track"%string
        /\ App.r_memory_elapsed r = t' - t
        /\ App.r_speed r = App.memory_speed sa * 0.98
        /\ App.memory_speed s2 = App.memory_speed sa * 0.98
        /\ App.velocity_north s2 = App.velocity_north sa
        /\ App.velocity_east s2 = App.velocity_east sa)
    /\ (let s1 :=
          Viewer.update_gps sv lat lon speed course accuracy (Some t) in
        let s2 := Viewer.update_ins s1 user_accel attitude dt (Some t') in
        Viewer.is_memory_mode s1 = true
        /\ Viewer.memory_mode_start_time s1 = Some t
        /\ Viewer.track s2
           = Viewer.track sv
             ++ [(Viewer.current_lat s2, Viewer.current_lon s2,
                  "memory"%string)]
        /\ Viewer.memory_speed s2 = Viewer.memory_speed sv * 0.98
        /\ Viewer.velocity_north s2 = Viewer.velocity_north sv
        /\ Viewer.velocity_east s2 = Viewer.velocity_east sv).
Proof.
  intros sa sv t t' lat lon speed course accuracy dt user_accel attitude
    Hwf Hi Hma Hsa Hmv Hsv Hacc Ht Ht' Hel Hdt.
  assert (Hnz : Rneqb t 0 = true) by (apply Rneqb_true; exact Ht).
  assert (Hnz' : Rneqb t' 0 = true) by (apply Rneqb_true; exact Ht').
  split.
  - set (s1 := App.in_memory_mode_since t sa).
    assert (Hwf1 : App.wf s1).
    { unfold App.wf in *. unfold s1. simpl. rewrite Hi in *. exact Hwf. }
    assert (Hi1 : App.is_initialized s1 = true) by exact Hi.
    assert (Hu : App.use_memory_track s1 t' = true).
    { unfold App.use_memory_track, App.memory_elapsed,
        App.MEMORY_MAX_DURATION, s1. simpl. rewrite Hnz. simpl.
      apply andb_true_intro. split; apply Rltb_true; lra. }
    destruct (app_update_ins_memory s1 t' user_accel attitude dt
                Hwf1 Hi1 Hu)
      as (s2 & r & Hok & Hmode & Hel' & Hsp & Hms & Hvn & Hve).
    exists s1, s2, r.
    split; [ apply app_poor_fix_enters; assumption | ].
    split; [ reflexivity | ].
    split; [ reflexivity | ].
    split; [ exact Hok | ].
    split; [ exact Hmode | ].
    split.
    { rewrite Hel'. unfold App.memory_elapsed, s1. simpl.
      rewrite Hnz. reflexivity. }
    repeat split; assumption.
  - intros s1 s2.
    assert (Hs1 : s1 = Viewer.in_memory_mode_since (Some t) sv)
      by (apply viewer_poor_fix_enters; assumption).
    assert (Hu : Viewer.use_memory_track s1 (Some t') = true).
    { rewrite Hs1.
      unfold Viewer.use_memory_track, Viewer.MEMORY_MAX_DURATION. simpl.
      rewrite Hnz, Hnz'. simpl.
      apply andb_true_intro. split; apply Rltb_true; lra. }
    split; [ rewrite Hs1; reflexivity | ].
    split; [ rewrite Hs1; reflexivity | ].
    destruct (ViewerFacts.viewer_update_ins_positive_dt s1 user_accel
                attitude dt (Some t') Hdt) as (_ & _ & Htr).
    fold s2 in Htr. rewrite Hu in Htr.
    split; [ rewrite Htr, Hs1; reflexivity | ].
    assert (Hs2 : s2 = Viewer.finish_ins "memory" dt
                         (Viewer.memory_branch s1 attitude dt)).
    { unfold s2, Viewer.update_ins.
      assert (Hg : Rleb dt 0 = false) by (apply Rleb_false; lra).
      rewrite Hg, Hu. reflexivity. }
    destruct (viewer_memory_branch_decay s1 attitude dt)
      as (Hms & Hvn & Hve & _).
    rewrite Hs2. unfold Viewer.finish_ins.
    revert Hms Hvn Hve. generalize (Viewer.memory_branch s1 attitude dt).
    intros m Hms Hvn Hve. simpl.
    rewrite Hms, Hvn, Hve, Hs1. repeat split; reflexivity.
Qed.

Lemma poor_fix_then_memory_step_witness :
  let s1 := Viewer.update_gps viewer_moving 35 139 (-1) (-1) 50 (Some 100) in
  let s2 := Viewer.update_ins s1 None None 0.1 (Some 110) in
  Viewer.memory_speed s2 = 5 * 0.98.
Proof.
  assert (Hwf : App.wf app_moving) by (split; discriminate).
  assert (H5 : 0.3 < 5) by lra.
  assert (Hacc : 50 < 0 \/ 30 <= 50) by (right; lra).
  assert (Ht : 100 <> 0) by lra.
  assert (Ht' : 110 <> 0) by lra.
  assert (Hel : 110 - 100 < 60) by lra.
  assert (Hdt : 0 < 0.1) by lra.
  apply (poor_fix_then_memory_step app_moving viewer_moving
           100 110 35 139 (-1) (-1) 50 0.1 None None
           Hwf eq_refl eq_refl H5 eq_refl H5 Hacc Ht Ht' Hel Hdt).
Defined.


Lemma viewer_falsy_time_no_memory (s : Viewer.state) (timestamp : option R) :
  timestamp = None \/ timestamp = Some 0
  \/ Viewer.memory_mode_start_time s = None
  \/ Viewer.memory_mode_start_time s = Some 0 ->
  Viewer.use_memory_track s timestamp = false.
Proof.
  assert (H0 : Rneqb 0 0 = false) by (apply Rneqb_false; reflexivity).
  unfold Viewer.use_memory_track. intros H.
  destruct (Viewer.is_memory_mode s); [ | reflexivity ].
  destruct (Viewer.memory_mode_start_time s) as [t0 | ];
    [ | reflexivity ].
  destruct timestamp as [t | ]; simpl;
    [ | rewrite andb_false_r; reflexivity ].
  destruct H as [H | [H | [H | H]]]; try discriminate;
    injection H as ->; rewrite H0; simpl; rewrite ?andb_false_r;
    reflexivity.
Qed.

(** X6.  The viewer tests its times for truth, so a time that is missing
    or exactly 0 counts as absent.  A prediction whose timestamp is [None]
    or 0, or made while the recorded entry time is [None] or 0, is never a
    memory step: with [dt > 0] it appends an [ins] entry.  In particular,
    when memory mode is entered by a poor fix that carries no timestamp (or
    timestamp 0), the flag is set but every later prediction stays
    inertial. *)
Theorem viewer_memory_needs_timestamps :
  forall (s sm : Viewer.state) (timestamp fix_time later : option R)
         (lat lon speed course accuracy dt : R)
         (user_accel attitude : option triple),
    0 < dt ->
    (timestamp = None \/ timestamp = Some 0
     \/ Viewer.memory_mode_start_time s = None
     \/ Viewer.memory_mode_start_time s = Some 0) ->
    Viewer.is_memory_mode sm = false ->
    0.3 < Viewer.memory_speed sm ->
    accuracy < 0 \/ 30 <= accuracy ->
    fix_time = None \/ fix_time = Some 0 ->
    (let s' := Viewer.update_ins s user_accel attitude dt timestamp in
     Viewer.track s'
     = Viewer.track s
       ++ [(Viewer.current_lat s', Viewer.current_lon s', "ins"%string)])
    /\ (let s1 :=
          Viewer.update_gps sm lat lon speed course accuracy fix_time in
        let s2 := Viewer.update_ins s1 user_accel attitude dt later in
        Viewer.is_memory_mode s1 = true
        /\ Viewer.track s2
           = Viewer.track sm
             ++ [(Viewer.current_lat s2, Viewer.current_lon s2,
                  "ins"%string)]).
Proof.
  intros s sm timestamp fix_time later lat lon speed course accuracy dt
    user_accel attitude Hdt Hfalsy Hm Hs Hacc Hfix.
  split.
  - intros s'.
    destruct (ViewerFacts.viewer_update_ins_positive_dt s user_accel
                attitude dt timestamp Hdt) as (_ & _ & Htr).
    rewrite (viewer_falsy_time_no_memory s timestamp Hfalsy) in Htr.
    exact Htr.
  - intros s1 s2.
    assert (Hs1 : s1 = Viewer.in_memory_mode_since fix_time sm)
      by (apply viewer_poor_fix_enters; assumption).
    split; [ rewrite Hs1; reflexivity | ].
    destruct (ViewerFacts.viewer_update_ins_positive_dt s1 user_accel
                attitude dt later Hdt) as (_ & _ & Htr).
    fold s2 in Htr.
    assert (Hno : Viewer.use_memory_track s1 later = false).
    { apply viewer_falsy_time_no_memory. right; right.
      rewrite Hs1. simpl. exact Hfix. }
    rewrite Hno in Htr. rewrite Htr, Hs1. reflexivity.
Qed.

Lemma viewer_memory_needs_timestamps_witness :
  let s1 := Viewer.update_gps viewer_moving 35 139 (-1) (-1) 50 None in
  let s2 := Viewer.update_ins s1 None None 0.1 (Some 110) in
  Viewer.is_memory_mode s1 = true
  /\ Viewer.track s2
     = Viewer.track viewer_moving
       ++ [(Viewer.current_lat s2, Viewer.current_lon s2, "ins"%string)].
Proof.
  assert (Hdt : 0 < 0.1) by lra.
  assert (H5 : 0.3 < 5) by lra.
  assert (Hacc : 50 < 0 \/ 30 <= 50) by (right; lra).
  apply (viewer_memory_needs_timestamps viewer_moving viewer_moving
           None None (Some 110) 35 139 (-1) (-1) 50 0.1 None None
           Hdt (or_introl eq_refl) eq_refl H5 Hacc (or_introl eq_refl)).
Defined.


(** ** Any sequence of calls *)





Lemma viewer_step_keeps_position s e :
  ViewerRun.position_recorded s ->
  ViewerRun.position_recorded (ViewerRun.step s e)
  /\ exists l,
       Viewer.track (ViewerRun.step s e) = Viewer.track s ++ l
       /\ (List.length l <= 1)%nat.
Proof.
  intros (l0 & tag0 & Hpos).
  destruct e as [lat lon speed course accuracy timestamp
                | user_accel attitude dt timestamp]; simpl.
  - assert (Hcase : (accuracy < 0 \/ 30 <= accuracy) \/ 0 <= accuracy < 30)
      by (destruct (Rlt_dec accuracy 0); destruct (Rle_dec 30 accuracy);
          lra).
    destruct Hcase as [Hacc | Hacc].
    + pose proof (ViewerTrack.viewer_update_gps_degraded s lat lon speed
                    course accuracy timestamp Hacc) as He.
      unfold Viewer.estimate in He.
      inversion He as [[Hlat Hlon Hvn Hve Hpu Hvu Ht]].
      split.
      * exists l0, tag0. rewrite Ht, Hlat, Hlon. exact Hpos.
      * exists []. rewrite Ht, app_nil_r. split; [ reflexivity | simpl; lia ].
    + destruct (ViewerTrack.viewer_update_gps_usable s lat lon speed course
                  accuracy timestamp Hacc) as (_ & _ & Ht).
      split.
      * eexists; eexists; exact Ht.
      * eexists; split; [ exact Ht | simpl; lia ].
  - destruct (Rle_dec dt 0) as [Hdt | Hdt].
    + rewrite viewer_update_ins_nonpositive_dt by exact Hdt.
      split.
      * exists l0, tag0. exact Hpos.
      * exists []. rewrite app_nil_r. split; [ reflexivity | simpl; lia ].
    + assert (Hpos' : 0 < dt) by lra.
      destruct (ViewerFacts.viewer_update_ins_positive_dt s user_accel
                  attitude dt timestamp Hpos') as (_ & _ & Ht).
      split.
      * eexists; eexists; exact Ht.
      * eexists; split; [ exact Ht | simpl; lia ].
Qed.

(** X8.  Whatever calls the viewer's engine receives after its creation at
    a start position, its track begins with the start position, is never
    empty, has at most one entry per call more than the first, and ends
    with the current position: [get_current_position] is the last point
    of [get_track]. *)
Theorem viewer_track_ends_at_position :
  forall (start_lat start_lon : R) (es : list ViewerRun.event),
    let s := ViewerRun.run (Viewer.init start_lat start_lon) es in
    ViewerRun.position_recorded s
    /\ List.last (ViewerRun.get_track s) (0, 0)
       = ViewerRun.get_current_position s
    /\ List.hd (0, 0) (ViewerRun.get_track s) = (start_lat, start_lon)
    /\ (1 <= List.length (ViewerRun.get_track s) <= 1 + List.length es)%nat.
Proof.
  intros start_lat start_lon es.
  assert (Hgen : forall es s,
             ViewerRun.position_recorded s ->
             ViewerRun.position_recorded (ViewerRun.run s es)
             /\ exists l,
                  Viewer.track (ViewerRun.run s es) = Viewer.track s ++ l
                  /\ (List.length l <= List.length es)%nat).
  { clear es. induction es as [ | e es IH]; intros s Hpos.
    - split; [ exact Hpos | ].
      exists []. simpl. rewrite app_nil_r. split; [ reflexivity | lia ].
    - destruct (viewer_step_keeps_position s e Hpos)
        as (Hpos1 & l1 & Ht1 & Hlen1).
      destruct (IH (ViewerRun.step s e) Hpos1) as (Hpos2 & l2 & Ht2 & Hlen2).
      split; [ exact Hpos2 | ].
      exists (l1 ++ l2). unfold ViewerRun.run in *. simpl.
      rewrite Ht2, Ht1, app_assoc, length_app.
      split; [ reflexivity | simpl; lia ]. }
  assert (H0 : ViewerRun.position_recorded (Viewer.init start_lat start_lon))
    by (exists [], "gps"%string; reflexivity).
  destruct (Hgen es _ H0) as (Hpos & l & Ht & Hlen).
  intros s. fold s in Hpos, Ht.
  split; [ exact Hpos | ].
  destruct Hpos as (l0 & tag & Hlast).
  unfold ViewerRun.get_track, ViewerRun.get_current_position.
  split; [ | split ].
  - rewrite Hlast, map_app. simpl. apply last_last.
  - rewrite Ht. reflexivity.
  - rewrite length_map, Ht. simpl. lia.
Qed.


(** ** Standing still *)








(** ** The first fix and the blend *)

(** X10.  The application's engine takes its first fix unconditionally:
    on an engine that is not initialised, [update_gps] does not look at
    the accuracy (nor at speed and course).  It sets the position to the
    fix, starts the track with it and leaves velocity, uncertainties and
    the memory state as [reset] made them; a poor first fix is not
    skipped and does not enter memory mode. *)
Theorem app_first_fix_is_unconditional :
  forall (s : App.state) (now lat lon speed course accuracy : R),
    App.is_initialized s = false ->
    exists s',
      App.update_gps s now lat lon speed course accuracy = Ok s'
      /\ s' = App.initialize lat lon s
      /\ App.is_initialized s' = true
      /\ App.current_lat s' = Some lat
      /\ App.current_lon s' = Some lon
      /\ App.track s' = [(lat, lon)]
      /\ App.velocity_north s' = App.velocity_north s
      /\ App.velocity_east s' = App.velocity_east s
      /\ App.position_uncertainty s' = App.position_uncertainty s
      /\ App.is_memory_mode s' = App.is_memory_mode s
      /\ App.memory_speed s' = App.memory_speed s
      /\ App.last_good_gps_time s' = App.last_good_gps_time s.
Proof.
  intros s now lat lon speed course accuracy Hi.
  exists (App.initialize lat lon s).
  unfold App.update_gps. rewrite Hi. cbn [negb].
  repeat split; reflexivity.
Qed.

Lemma app_first_fix_is_unconditional_witness :
  exists s',
    App.update_gps App.reset 1000 35 139 (-1) (-1) (-1) = Ok s'
    /\ App.track s' = [(35, 139)]
    /\ App.is_memory_mode s' = false.
Proof.
  destruct (app_first_fix_is_unconditional App.reset 1000 35 139 (-1) (-1)
              (-1) eq_refl)
    as (s' & Hok & _ & _ & _ & _ & Ht & _ & _ & _ & Hm & _).
  exists s'. repeat split; assumption.
Defined.

Lemma blend_between (w a b : R) :
  0 < w <= 1 ->
  Rmin a b <= (1 - w) * a + w * b <= Rmax a b.
Proof.
  intros Hw.
  pose proof (Rmin_l a b). pose proof (Rmin_r a b).
  pose proof (Rmax_l a b). pose proof (Rmax_r a b).
  split; nra.
Qed.

(** X11.  The position after a fix of usable accuracy lies between the
    previous position and the fix, coordinate by coordinate, and a fix of
    accuracy 0 replaces the position by the fix (weight 1).  Both
    variants. *)
Theorem usable_fix_moves_towards_fix :
  forall (sa : App.state) (sv : Viewer.state)
         (now lat lon speed course accuracy clat clon : R)
         (timestamp : option R),
    App.is_initialized sa = true ->
    App.current_lat sa = Some clat ->
    App.current_lon sa = Some clon ->
    0 <= accuracy < 30 ->
    (exists sa' la lo,
        App.update_gps sa now lat lon speed course accuracy = Ok sa'
        /\ App.current_lat sa' = Some la
        /\ App.current_lon sa' = Some lo
        /\ Rmin clat lat <= la <= Rmax clat lat
        /\ Rmin clon lon <= lo <= Rmax clon lon
        /\ (accuracy = 0 -> la = lat /\ lo = lon))
    /\ (let sv' :=
          Viewer.update_gps sv lat lon speed course accuracy timestamp in
        Rmin (Viewer.current_lat sv) lat <= Viewer.current_lat sv'
          <= Rmax (Viewer.current_lat sv) lat
        /\ Rmin (Viewer.current_lon sv) lon <= Viewer.current_lon sv'
             <= Rmax (Viewer.current_lon sv) lon
        /\ (accuracy = 0 ->
            ViewerRun.get_current_position sv' = (lat, lon))).
Proof.
  intros sa sv now lat lon speed course accuracy clat clon timestamp
    Hi Hlat Hlon Hacc.
  assert (Hw : 0 < gps_weight accuracy <= 1)
    by (apply gps_weight_range; lra).
  assert (H0 : accuracy = 0 -> gps_weight accuracy = 1)
    by (intros ->; rewrite gps_weight_eq; lra).
  split.
  - destruct (AppFix.app_update_gps_usable sa now lat lon speed course
                accuracy clat clon Hi Hlat Hlon Hacc)
      as (sa' & Hok & Hla & Hlo & _).
    exists sa'. eexists; eexists.
    split; [ exact Hok | ].
    split; [ exact Hla | ].
    split; [ exact Hlo | ].
    split; [ apply blend_between; exact Hw | ].
    split; [ apply blend_between; exact Hw | ].
    intros Hz. rewrite (H0 Hz). split; ring.
  - destruct (ViewerTrack.viewer_update_gps_usable sv lat lon speed course
                accuracy timestamp Hacc) as (Hla & Hlo & _).
    cbv zeta in Hla, Hlo. cbv zeta.
    rewrite Hla, Hlo.
    split; [ apply blend_between; exact Hw | ].
    split; [ apply blend_between; exact Hw | ].
    intros Hz. unfold ViewerRun.get_current_position.
    rewrite Hla, Hlo, (H0 Hz). f_equal; ring.
Qed.

Lemma usable_fix_moves_towards_fix_witness :
  ViewerRun.get_current_position
    (Viewer.update_gps (Viewer.init 35 139) 36 140 2 90 0 (Some 1000))
  = (36, 140).
Proof.
  assert (Hacc : 0 <= 0 < 30) by lra.
  apply (usable_fix_moves_towards_fix app_first_fix (Viewer.init 35 139)
           1000 36 140 2 90 0 35 139 (Some 1000)
           eq_refl eq_refl eq_refl Hacc).
  reflexivity.
Defined.


(** ** Altitude fusion: after the anchor *)

Module AltitudeMore.
Import AltitudeFusion.

(** A reachable object that has a GPS reference has a fused altitude. *)
Lemma reachable_anchored_fused s :
  reachable s -> gps_altitude s <> None -> fused_altitude s <> None.
Proof.
  induction 1 as [ | s ga va b az dt Hr IH]; [ easy | ].
  destruct s as [g0 b0 f0 v0]. simpl in IH.
  unfold update. simpl.
  destruct g0 as [g | ].
  - specialize (IH ltac:(discriminate)).
    destruct f0 as [f | ]; [ | congruence ].
    intros _. branch_cases; simpl; discriminate.
  - branch_cases; simpl; congruence.
Qed.

Lemma update_returns_fused s ga va b az dt :
  gps_altitude s <> None ->
  snd (update s ga va b az dt)
  = fused_altitude (fst (update s ga va b az dt)).
Proof.
  intros Hg. unfold update.
  destruct (gps_altitude s) as [g | ]; [ reflexivity | congruence ].
Qed.

End AltitudeMore.

(** X12.  Once an [AltitudeFusion] object has been anchored it never
    returns [None] again: in every state reachable from a new object by
    calls of [update] in which the GPS reference is set, any call of
    [update], with whatever arguments, returns an altitude. *)
Theorem altitude_never_none_after_anchor :
  forall (s : AltitudeFusion.state) (ga va b az : option R) (dt : R),
    AltitudeFusion.reachable s ->
    AltitudeFusion.gps_altitude s <> None ->
    exists h, snd (AltitudeFusion.update s ga va b az dt) = Some h.
Proof.
  intros s ga va b az dt Hr Hg.
  rewrite AltitudeMore.update_returns_fused by exact Hg.
  assert (Hr' : AltitudeFusion.reachable
                  (fst (AltitudeFusion.update s ga va b az dt)))
    by (constructor; exact Hr).
  assert (Hg' : AltitudeFusion.gps_altitude
                  (fst (AltitudeFusion.update s ga va b az dt)) <> None).
  { destruct (AltitudeFacts.reachable_init_or_anchored s Hr)
      as [-> | (g & b0 & Ha)]; [ easy | ].
    destruct (AltitudeFacts.update_keeps_anchored s g b0 ga va b az dt Ha)
      as (g' & b0' & Hg' & _).
    rewrite Hg'. discriminate. }
  pose proof (AltitudeMore.reachable_anchored_fused _ Hr' Hg') as Hf.
  destruct (AltitudeFusion.fused_altitude
              (fst (AltitudeFusion.update s ga va b az dt))) as [h | ];
    [ exists h; reflexivity | congruence ].
Qed.

Lemma altitude_never_none_after_anchor_witness :
  exists h,
    snd (AltitudeFusion.update altitude_anchored_100 None None None None 0)
    = Some h.
Proof.
  assert (Hr : AltitudeFusion.reachable altitude_anchored_100)
    by (apply AltitudeFusion.reachable_update,
          AltitudeFusion.reachable_init).
  assert (Hg : AltitudeFusion.gps_altitude altitude_anchored_100 <> None).
  { unfold altitude_anchored_100.
    rewrite AltitudeFacts.update_unanchored_valid;
      [ discriminate | reflexivity | lra ]. }
  apply (altitude_never_none_after_anchor altitude_anchored_100
           None None None None 0 Hr Hg).
Defined.

(** X13.  Re-anchoring.  On an anchored object, a call that brings a GPS
    altitude [a] together with a vertical accuracy [v], [0 < v < 15],
    moves the GPS reference to [0.7 * g + 0.3 * a], a value between the old
    reference and [a], and replaces the barometric reference by the
    barometer reading when there is one.  This holds for [a = 0] too: the
    test on 0 is made by the anchoring and the fallback only.  With a
    vertical accuracy that is absent, not positive or 15 and more, or
    without a GPS altitude, both references stay as they were. *)
Theorem altitude_reanchoring :
  forall (s : AltitudeFusion.state) (g b0 a v : R)
         (ga va baro az : option R) (dt : R),
    AltitudeFusion.anchored s g b0 ->
    0 < v < 15 ->
    (ga = None \/ va = None \/ (exists w, va = Some w /\ (w <= 0 \/ 15 <= w)))
    ->
    (let s' :=
       fst (AltitudeFusion.update s (Some a) (Some v) baro az dt) in
     AltitudeFusion.gps_altitude s' = Some ((1 - 0.3) * g + 0.3 * a)
     /\ Rmin g a <= (1 - 0.3) * g + 0.3 * a <= Rmax g a
     /\ AltitudeFusion.baro_reference s'
        = Some (match baro with Some b => b | None => b0 end))
    /\ AltitudeFusion.anchored
         (fst (AltitudeFusion.update s ga va baro az dt)) g b0.
Proof.
  intros s g b0 a v ga va baro az dt [Hg Hb] Hv Hno.
  destruct s as [g1 b1 f1 v1]. simpl in Hg, Hb. subst.
  assert (Hgood : Rgtb v 0 && Rltb v 15 = true) by cmp_cases.
  split.
  - unfold AltitudeFusion.update. simpl. rewrite Hgood.
    split; [ | split ].
    + destruct baro; branch_cases; reflexivity.
    + apply blend_between; lra.
    + destruct baro; branch_cases; reflexivity.
  - unfold AltitudeFusion.update, AltitudeFusion.anchored. simpl.
    destruct Hno as [-> | [-> | (w & -> & Hw)]].
    + branch_cases; simpl; split; reflexivity.
    + branch_cases; simpl; split; reflexivity.
    + assert (Hbad : Rgtb w 0 && Rltb w 15 = false)
        by (destruct Hw; cmp_cases).
      rewrite Hbad. branch_cases; simpl; split; reflexivity.
Qed.

Lemma altitude_reanchoring_witness :
  AltitudeFusion.gps_altitude
    (fst (AltitudeFusion.update
            (AltitudeFusion.mkstate (Some 100) (Some 2) (Some 100) 0)
            (Some 0) (Some 5) (Some 3) None 0.1))
  = Some ((1 - 0.3) * 100 + 0.3 * 0).
Proof.
  assert (Hv : 0 < 5 < 15) by lra.
  apply (altitude_reanchoring
           (AltitudeFusion.mkstate (Some 100) (Some 2) (Some 100) 0)
           100 2 0 5 None None (Some 3) None 0.1
           (conj eq_refl eq_refl) Hv (or_introl eq_refl)).
Defined.

(** X14.  The vertical acceleration never corrects the altitude: the
    value returned by [update], the fused altitude and both references are
    the same whatever [accel_z] and [dt] are.  They only drive the vertical
    velocity, which on an anchored object becomes
    [(v + accel_z * 9.81 * dt) * 0.95] when an acceleration is present and
    [dt > 0], and is left unchanged otherwise. *)
Theorem altitude_ignores_acceleration :
  forall (s : AltitudeFusion.state) (g z dt dt' : R)
         (ga va baro az az' : option R),
    AltitudeFusion.gps_altitude s = Some g ->
    0 < dt ->
    dt' <= 0 ->
    (let r := AltitudeFusion.update s ga va baro az dt in
     let r' := AltitudeFusion.update s ga va baro az' dt' in
     snd r = snd r'
     /\ AltitudeFusion.fused_altitude (fst r)
        = AltitudeFusion.fused_altitude (fst r')
     /\ AltitudeFusion.gps_altitude (fst r)
        = AltitudeFusion.gps_altitude (fst r')
     /\ AltitudeFusion.baro_reference (fst r)
        = AltitudeFusion.baro_reference (fst r'))
    /\ AltitudeFusion.vertical_velocity
         (fst (AltitudeFusion.update s ga va baro (Some z) dt))
       = (AltitudeFusion.vertical_velocity s + z * 9.81 * dt) * 0.95
    /\ AltitudeFusion.vertical_velocity
         (fst (AltitudeFusion.update s ga va baro None dt))
       = AltitudeFusion.vertical_velocity s
    /\ AltitudeFusion.vertical_velocity
         (fst (AltitudeFusion.update s ga va baro az dt'))
       = AltitudeFusion.vertical_velocity s
    /\ AltitudeApi.get_vertical_velocity
         (fst (AltitudeFusion.update s ga va baro az dt'))
       = AltitudeFusion.vertical_velocity s.
Proof.
  intros s g z dt dt' ga va baro az az' Hg Hdt Hdt'.
  destruct s as [g1 b1 f1 v1]. simpl in Hg. subst g1.
  assert (Hpos : Rgtb dt 0 = true) by (apply Rltb_true; lra).
  assert (Hneg : Rgtb dt' 0 = false) by (apply Rltb_false; lra).
  unfold AltitudeApi.get_vertical_velocity, AltitudeFusion.update.
  simpl. rewrite Hpos, Hneg.
  repeat split; branch_cases; reflexivity.
Qed.

Lemma altitude_ignores_acceleration_witness :
  AltitudeFusion.vertical_velocity
    (fst (AltitudeFusion.update
            (AltitudeFusion.mkstate (Some 100) (Some 2) (Some 100) 0)
            None None (Some 3) (Some 1) 0.1))
  = (0 + 1 * 9.81 * 0.1) * 0.95.
Proof.
  assert (Hdt : 0 < 0.1) by lra.
  assert (Hdt' : 0 <= 0) by lra.
  apply (altitude_ignores_acceleration
           (AltitudeFusion.mkstate (Some 100) (Some 2) (Some 100) 0)
           100 1 0.1 0 None None (Some 3) None None eq_refl Hdt Hdt').
Defined.

(** ** Dead reckoning *)

Module DeadReckoningFacts.

Import DeadReckoning.

(** The attitude changes the heading and the remembered yaw only. *)
Lemma integrate_attitude_keeps (s : state) (attitude : option triple) :
  let s' := fst (integrate_attitude s attitude) in
  last_gps_lat s' = last_gps_lat s
  /\ current_lat s' = current_lat s
  /\ current_lon s' = current_lon s
  /\ velocity_north s' = velocity_north s
  /\ velocity_east s' = velocity_east s
  /\ is_active s' = is_active s
  /\ dr_start_time s' = dr_start_time s.
Proof.
  unfold integrate_attitude.
  destruct attitude as [[[roll pitch] yaw] | ]; [ | simpl; tauto ].
  destruct (last_yaw s); simpl; tauto.
Qed.

(** The acceleration changes the velocity only. *)
Lemma integrate_accel_keeps (s : state) (user_accel : option triple)
    (dt : R) :
  let s' := fst (fst (integrate_accel s user_accel dt)) in
  last_gps_lat s' = last_gps_lat s
  /\ current_lat s' = current_lat s
  /\ current_lon s' = current_lon s
  /\ current_heading s' = current_heading s
  /\ is_active s' = is_active s
  /\ dr_start_time s' = dr_start_time s
  /\ last_yaw s' = last_yaw s.
Proof.
  unfold integrate_accel.
  destruct user_accel as [[[ax ay] az] | ]; [ | simpl; tauto ].
  destruct (Rgtb (Rabs ax) 0.05 || Rgtb (Rabs ay) 0.05); simpl; tauto.
Qed.

(** A step of an active object that has a position returns a dictionary. *)
Lemma update_with_sensors_active (s : state) (now : R)
    (user_accel attitude : option triple) (dt la lo t0 : R) :
  is_active s = true ->
  current_lat s = Some la ->
  current_lon s = Some lo ->
  dr_start_time s = Some t0 ->
  exists s' r,
    update_with_sensors s now user_accel attitude dt = Ok (s', Some r)
    /\ last_gps_lat s' = last_gps_lat s
    /\ is_active s' = true
    /\ dr_start_time s' = Some t0
    /\ current_lat s' = Some (r_lat r)
    /\ current_lon s' = Some (r_lon r)
    /\ r_elapsed r = now - t0
    /\ r_speed r = sqrt (velocity_north s' ^ 2 + velocity_east s' ^ 2)
    /\ velocity_north s'
       = fst (driven_velocity s user_accel attitude dt) * 0.995
    /\ velocity_east s'
       = snd (driven_velocity s user_accel attitude dt) * 0.995
    /\ r_lat r
       = la + degrees (velocity_north s' * dt / EARTH_RADIUS).
Proof.
  intros Ha Hla Hlo Ht.
  unfold update_with_sensors, driven_velocity.
  rewrite Ha, Hla. cbn [negb].
  pose proof (integrate_attitude_keeps s attitude) as K1.
  destruct (integrate_attitude s attitude) as [s1 delta_yaw].
  cbn [fst] in K1 |- *.
  pose proof (integrate_accel_keeps s1 user_accel dt) as K2.
  destruct (integrate_accel s1 user_accel dt) as [[s2 an] ae].
  cbn [fst] in K2 |- *.
  destruct K2 as (G2 & _ & L2 & _ & A2 & T2 & _).
  destruct K1 as (G1 & _ & L1 & _ & _ & A1 & T1).
  cbn. rewrite L2, L1, Hlo, T2, T1, Ht.
  eexists; eexists. split; [ reflexivity | ].
  cbn. rewrite G2, G1, A2, A1, Ha, T2, T1, Ht.
  repeat split; reflexivity.
Qed.

(** The heading a step reports and the yaw it remembers are those the
    attitude sample leaves. *)
Lemma update_with_sensors_heading (s s' : state) (now : R)
    (user_accel attitude : option triple) (dt : R) (r : dr_result) :
  update_with_sensors s now user_accel attitude dt = Ok (s', Some r) ->
  r_heading r
  = degrees (current_heading (fst (integrate_attitude s attitude)))
  /\ last_yaw s' = last_yaw (fst (integrate_attitude s attitude)).
Proof.
  unfold update_with_sensors.
  destruct (negb (is_active s)); [ discriminate | ].
  destruct (current_lat s) as [clat | ]; [ | discriminate ].
  destruct (integrate_attitude s attitude) as [s1 delta_yaw].
  cbn [fst].
  pose proof (integrate_accel_keeps s1 user_accel dt) as K2.
  destruct (integrate_accel s1 user_accel dt) as [[s2 an] ae].
  cbn [fst] in K2.
  destruct K2 as (_ & _ & _ & H2 & _ & _ & Y2).
  rewrite <- H2, <- Y2.
  destruct s2 as [g glon gs gc gt la lo vn ve ly h a t0 u].
  cbn.
  destruct lo; [ | discriminate ].
  destruct t0; [ | discriminate ].
  intros E. inversion E. split; reflexivity.
Qed.

End DeadReckoningFacts.

Module DeadReckoningRunFacts.

Import DeadReckoningRun.

Lemma start_keeps_driven_velocity (d : DeadReckoning.state) (now1 now2 : R)
    (user_accel attitude : option triple) (dt : R) :
  DeadReckoning.driven_velocity
    (fst (DeadReckoning.start_dead_reckoning d now1 now2))
    user_accel attitude dt
  = DeadReckoning.driven_velocity d user_accel attitude dt.
Proof.
  unfold DeadReckoning.driven_velocity, DeadReckoning.start_dead_reckoning,
    DeadReckoning.integrate_attitude, DeadReckoning.integrate_accel.
  destruct d as [g glon gs gc gt la lo vn ve ly h a t0 u].
  destruct g; [ | reflexivity ].
  destruct attitude as [[[roll pitch] yaw] | ], ly,
    user_accel as [[[ax ay] az] | ]; cbn; try reflexivity;
    destruct (Rgtb (Rabs ax) 0.05 || Rgtb (Rabs ay) 0.05); reflexivity.
Qed.

(** Without integrated acceleration the velocity is left to the decay,
    whatever the attitude is. *)
Lemma coasting_driven_velocity (d : DeadReckoning.state)
    (user_accel attitude : option triple) (dt : R) :
  DeadReckoning.not_integrated user_accel = true ->
  DeadReckoning.driven_velocity d user_accel attitude dt
  = (DeadReckoning.velocity_north d, DeadReckoning.velocity_east d).
Proof.
  intros Hq.
  pose proof (DeadReckoningFacts.integrate_attitude_keeps d attitude)
    as (_ & _ & _ & Hn & He & _).
  unfold DeadReckoning.driven_velocity.
  rewrite <- Hn, <- He.
  generalize (fst (DeadReckoning.integrate_attitude d attitude)).
  intros d1. unfold DeadReckoning.integrate_accel.
  destruct user_accel as [[[ax ay] az] | ]; [ | reflexivity ].
  cbn in Hq. apply negb_true_iff in Hq.
  cbn zeta. rewrite Hq. reflexivity.
Qed.

(** A pass without signal after a fix. *)
Lemma step_no_signal (s : state) (user_accel attitude : option triple)
    (dt now1 now2 now3 : R) :
  has_fix s ->
  exists s' r,
    step s (NoSignal user_accel attitude dt now1 now2 now3)
    = Ok (s', Some r)
    /\ has_fix s'
    /\ dr_mode s' = true
    /\ DeadReckoning.dr_start_time (dead_reckoning s')
       = Some (outage_start s now1)
    /\ DeadReckoning.r_elapsed r = now3 - outage_start s now1
    /\ DeadReckoning.current_lat (dead_reckoning s')
       = Some (DeadReckoning.r_lat r)
    /\ DeadReckoning.current_lon (dead_reckoning s')
       = Some (DeadReckoning.r_lon r)
    /\ DeadReckoning.r_speed r
       = sqrt (DeadReckoning.velocity_north (dead_reckoning s') ^ 2
               + DeadReckoning.velocity_east (dead_reckoning s') ^ 2)
    /\ DeadReckoning.velocity_north (dead_reckoning s')
       = fst (DeadReckoning.driven_velocity (dead_reckoning s)
                user_accel attitude dt) * 0.995
    /\ DeadReckoning.velocity_east (dead_reckoning s')
       = snd (DeadReckoning.driven_velocity (dead_reckoning s)
                user_accel attitude dt) * 0.995.
Proof.
  intros (Hg & Hla & Hlo & Hm).
  destruct s as [d m]. cbn in Hg, Hla, Hlo, Hm.
  destruct (DeadReckoning.last_gps_lat d) as [g | ] eqn:Eg;
    [ clear Hg | congruence ].
  destruct (DeadReckoning.current_lat d) as [la | ] eqn:Ela;
    [ clear Hla | congruence ].
  destruct (DeadReckoning.current_lon d) as [lo | ] eqn:Elo;
    [ clear Hlo | congruence ].
  unfold step, outage_start. cbn [dead_reckoning dr_mode]. rewrite Eg.
  destruct m; cbn [negb dead_reckoning dr_mode].
  - destruct (Hm eq_refl) as [Ha Ht].
    destruct (DeadReckoning.dr_start_time d) as [t0 | ] eqn:Et;
      [ clear Ht | congruence ].
    destruct (DeadReckoningFacts.update_with_sensors_active d now3
                user_accel attitude dt la lo t0 Ha Ela Elo Et)
      as (d' & r & Hu & G' & A' & T' & La' & Lo' & El & Sp & Vn & Ve & _).
    rewrite Hu. exists {| dead_reckoning := d'; dr_mode := true |}, r.
    cbn [dead_reckoning dr_mode].
    split; [ reflexivity | ].
    split; [ | tauto ].
    unfold has_fix. cbn [dead_reckoning dr_mode].
    rewrite G', La', Lo', A', T', Eg. 
    repeat split; discriminate.
  - set (d1 := fst (DeadReckoning.start_dead_reckoning d now1 now2)).
    assert (H1 : DeadReckoning.is_active d1 = true
                 /\ DeadReckoning.current_lat d1 = Some la
                 /\ DeadReckoning.current_lon d1 = Some lo
                 /\ DeadReckoning.dr_start_time d1 = Some now1
                 /\ DeadReckoning.last_gps_lat d1 = Some g).
    { unfold d1, DeadReckoning.start_dead_reckoning. rewrite Eg. cbn.
      tauto. }
    destruct H1 as (Ha & Ela1 & Elo1 & Et1 & Eg1).
    destruct (DeadReckoningFacts.update_with_sensors_active d1 now3
                user_accel attitude dt la lo now1 Ha Ela1 Elo1 Et1)
      as (d' & r & Hu & G' & A' & T' & La' & Lo' & El & Sp & Vn & Ve & _).
    rewrite Hu. exists {| dead_reckoning := d'; dr_mode := true |}, r.
    cbn [dead_reckoning dr_mode].
    split; [ reflexivity | ].
    unfold d1 in Vn, Ve. rewrite start_keeps_driven_velocity in Vn, Ve.
    split; [ | tauto ].
    unfold has_fix. cbn [dead_reckoning dr_mode].
    rewrite G', La', Lo', A', T', Eg1.
    repeat split; discriminate.
Qed.

Lemma step_signal_has_fix (s : state) (lat lon speed course : R)
    (timestamp : option R) :
  exists s',
    step s (Signal lat lon speed course timestamp) = Ok (s', None)
    /\ has_fix s'
    /\ dr_mode s' = false
    /\ dead_reckoning s'
       = DeadReckoning.update_gps (dead_reckoning s) lat lon speed course
           timestamp.
Proof.
  eexists. split; [ reflexivity | ].
  unfold has_fix. cbn.
  repeat split; discriminate.
Qed.

End DeadReckoningRunFacts.

(** X15.  A fix ends dead reckoning.  After [update_gps], whatever the
    state of the object was, [update_with_sensors] returns [None] and
    changes nothing until [start_dead_reckoning] is called; that call
    succeeds; and the velocity has been reset to the speed of the fix along
    its course: for a speed that is not negative its norm is that speed. *)
Theorem fix_ends_dead_reckoning :
  forall (s : DeadReckoning.state) (lat lon speed course : R)
         (timestamp : option R),
    0 <= speed ->
    let s' := DeadReckoning.update_gps s lat lon speed course timestamp in
    (forall now user_accel attitude dt,
        DeadReckoning.update_with_sensors s' now user_accel attitude dt
        = Ok (s', None))
    /\ sqrt (DeadReckoning.velocity_north s' ^ 2
             + DeadReckoning.velocity_east s' ^ 2) = speed
    /\ DeadReckoning.current_heading s' = radians course
    /\ (forall now1 now2,
           snd (DeadReckoning.start_dead_reckoning s' now1 now2) = true
           /\ DeadReckoning.is_active
                (fst (DeadReckoning.start_dead_reckoning s' now1 now2))
              = true).
Proof.
  intros s lat lon speed course timestamp Hs s'.
  split; [ | split; [ | split ] ].
  - intros now user_accel attitude dt. reflexivity.
  - unfold s'. cbn [DeadReckoning.update_gps DeadReckoning.velocity_north
                      DeadReckoning.velocity_east].
    rewrite course_speed_norm. apply sqrt_pow2. exact Hs.
  - reflexivity.
  - intros now1 now2. split; reflexivity.
Qed.

Lemma fix_ends_dead_reckoning_witness :
  sqrt (DeadReckoning.velocity_north
          (DeadReckoning.update_gps DeadReckoning.init 35 139 5 90 None) ^ 2
        + DeadReckoning.velocity_east
            (DeadReckoning.update_gps DeadReckoning.init 35 139 5 90 None)
          ^ 2)
  = 5.
Proof.
  assert (Hs : 0 <= 5) by lra.
  apply (fix_ends_dead_reckoning DeadReckoning.init 35 139 5 90 None Hs).
Defined.

Lemma coasting_run (es : list DeadReckoningRun.event) :
  forall s : DeadReckoningRun.state,
    DeadReckoningRun.has_fix s ->
    forallb DeadReckoningRun.coasting es = true ->
    exists s',
      DeadReckoningRun.run s es = Ok s'
      /\ DeadReckoningRun.has_fix s'
      /\ DeadReckoning.velocity_north (DeadReckoningRun.dead_reckoning s')
         = DeadReckoning.velocity_north (DeadReckoningRun.dead_reckoning s)
           * 0.995 ^ List.length es
      /\ DeadReckoning.velocity_east (DeadReckoningRun.dead_reckoning s')
         = DeadReckoning.velocity_east (DeadReckoningRun.dead_reckoning s)
           * 0.995 ^ List.length es.
Proof.
  induction es as [ | e es IH]; intros s Hf Hq.
  - exists s. cbn. split; [ reflexivity | ]. split; [ exact Hf | ].
    split; ring.
  - cbn [forallb] in Hq. apply andb_true_iff in Hq. destruct Hq as [He Hq].
    destruct e as [lat lon speed course timestamp
                  | user_accel attitude dt now1 now2 now3];
      [ discriminate | ].
    cbn [DeadReckoningRun.coasting] in He.
    destruct (DeadReckoningRunFacts.step_no_signal s user_accel attitude dt
                now1 now2 now3 Hf)
      as (s1 & r & Hstep & Hf1 & _ & _ & _ & _ & _ & _ & Vn & Ve).
    rewrite DeadReckoningRunFacts.coasting_driven_velocity in Vn, Ve
      by exact He.
    cbn [fst snd] in Vn, Ve.
    destruct (IH s1 Hf1 Hq) as (s' & Hrun & Hf' & Vn' & Ve').
    exists s'. cbn [DeadReckoningRun.run]. rewrite Hstep.
    split; [ exact Hrun | ]. split; [ exact Hf' | ].
    rewrite Vn', Ve', Vn, Ve. cbn [List.length pow]. split; ring.
Qed.

(** X16.  Coasting.  During an outage the dead reckoning has neither a
    stationary test nor a speed limit: as long as no acceleration is
    integrated (no sample, or both horizontal components within the
    threshold 0.05) every pass multiplies the velocity of the last fix by
    0.995, whatever the attitude samples and the time steps are.  After
    [n] such passes the velocity is [0.995 ^ n] times that of the fix, and
    the next one reports the speed [speed * 0.995 ^ (n + 1)], which is
    positive when the speed of the fix was. *)
Theorem dead_reckoning_coasts :
  forall (s : DeadReckoningRun.state) (lat lon speed course : R)
         (timestamp : option R) (es : list DeadReckoningRun.event),
    0 <= speed ->
    forallb DeadReckoningRun.coasting es = true ->
    exists s',
      DeadReckoningRun.run s
        (DeadReckoningRun.Signal lat lon speed course timestamp :: es)
      = Ok s'
      /\ DeadReckoning.velocity_north (DeadReckoningRun.dead_reckoning s')
         = speed * cos (radians course) * 0.995 ^ List.length es
      /\ DeadReckoning.velocity_east (DeadReckoningRun.dead_reckoning s')
         = speed * sin (radians course) * 0.995 ^ List.length es
      /\ forall user_accel attitude dt now1 now2 now3,
           DeadReckoning.not_integrated user_accel = true ->
           exists s'' r,
             DeadReckoningRun.step s'
               (DeadReckoningRun.NoSignal user_accel attitude dt
                  now1 now2 now3)
             = Ok (s'', Some r)
             /\ DeadReckoning.r_speed r
                = speed * 0.995 ^ S (List.length es)
             /\ (0 < speed -> 0 < DeadReckoning.r_speed r).
Proof.
  intros s lat lon speed course timestamp es Hs Hq.
  destruct (DeadReckoningRunFacts.step_signal_has_fix s lat lon speed course
              timestamp) as (s0 & Hstep0 & Hf0 & _ & Hd0).
  destruct (coasting_run es s0 Hf0 Hq) as (s' & Hrun & Hf' & Vn & Ve).
  rewrite Hd0 in Vn, Ve.
  cbn [DeadReckoning.update_gps DeadReckoning.velocity_north
         DeadReckoning.velocity_east] in Vn, Ve.
  exists s'. cbn [DeadReckoningRun.run]. rewrite Hstep0.
  split; [ exact Hrun | ]. split; [ exact Vn | ]. split; [ exact Ve | ].
  intros user_accel attitude dt now1 now2 now3 Hni.
  destruct (DeadReckoningRunFacts.step_no_signal s' user_accel attitude dt
              now1 now2 now3 Hf')
    as (s'' & r & Hstep & _ & _ & _ & _ & _ & _ & Sp & Vn' & Ve').
  rewrite DeadReckoningRunFacts.coasting_driven_velocity in Vn', Ve'
    by exact Hni.
  cbn [fst snd] in Vn', Ve'.
  assert (Hk : 0 < 0.995 ^ S (List.length es)) by (apply pow_lt; lra).
  assert (Hsp : DeadReckoning.r_speed r
                = speed * 0.995 ^ S (List.length es)).
  { rewrite Sp, Vn', Ve', Vn, Ve.
    replace ((speed * cos (radians course) * 0.995 ^ List.length es * 0.995)
               ^ 2
             + (speed * sin (radians course) * 0.995 ^ List.length es
                * 0.995) ^ 2)
      with (((speed * cos (radians course)) ^ 2
             + (speed * sin (radians course)) ^ 2)
            * (0.995 ^ S (List.length es)) ^ 2)
      by (cbn [pow]; ring).
    rewrite course_speed_norm.
    replace (speed ^ 2 * (0.995 ^ S (List.length es)) ^ 2)
      with ((speed * 0.995 ^ S (List.length es)) ^ 2) by ring.
    apply sqrt_pow2. apply Rmult_le_pos; lra. }
  exists s'', r. split; [ exact Hstep | ]. split; [ exact Hsp | ].
  intros Hpos. rewrite Hsp. apply Rmult_lt_0_compat; assumption.
Qed.

Lemma dead_reckoning_coasts_witness :
  exists s',
    DeadReckoningRun.run DeadReckoningRun.init
      [DeadReckoningRun.Signal 35 139 5 90 None;
       DeadReckoningRun.NoSignal None None 1 10 10 10]
    = Ok s'
    /\ DeadReckoning.velocity_north (DeadReckoningRun.dead_reckoning s')
       = 5 * cos (radians 90) * 0.995 ^ 1.
Proof.
  assert (Hs : 0 <= 5) by lra.
  destruct (dead_reckoning_coasts DeadReckoningRun.init 35 139 5 90 None
              [DeadReckoningRun.NoSignal None None 1 10 10 10] Hs eq_refl)
    as (s' & Hrun & Vn & _).
  exists s'. split; [ exact Hrun | exact Vn ].
Defined.



(** X18.  [update_gps] resets the heading to the course of the fix but
    keeps [last_yaw], and [update_with_sensors] is only called during an
    outage.  So the first pass of an outage that has an attitude sample
    turns the heading away from the course of the fix by the wrapped
    difference between its yaw and the last yaw sampled before the fix,
    that is during the previous outage; only on an object that has never
    seen an attitude is the course reported as it is. *)
Theorem first_pass_uses_stale_yaw :
  forall (s : DeadReckoningRun.state) (lat lon speed course : R)
         (timestamp : option R) (user_accel : option triple)
         (roll pitch yaw dt now1 now2 now3 : R),
  exists s1 s2 r,
    DeadReckoningRun.step s
      (DeadReckoningRun.Signal lat lon speed course timestamp)
    = Ok (s1, None)
    /\ DeadReckoningRun.step s1
         (DeadReckoningRun.NoSignal user_accel (Some (roll, pitch, yaw)) dt
            now1 now2 now3)
       = Ok (s2, Some r)
    /\ DeadReckoning.r_heading r
       = degrees
           (match DeadReckoning.last_yaw (DeadReckoningRun.dead_reckoning s)
            with
            | Some ly => radians course + wrap_yaw_delta (yaw - ly)
            | None => radians course
            end)
    /\ DeadReckoning.last_yaw (DeadReckoningRun.dead_reckoning s2)
       = Some yaw.
Proof.
  intros s lat lon speed course timestamp user_accel roll pitch yaw dt
    now1 now2 now3.
  destruct (DeadReckoningRunFacts.step_signal_has_fix s lat lon speed course
              timestamp) as (s1 & Hstep1 & Hf1 & Hm1 & Hd1).
  destruct (DeadReckoningRunFacts.step_no_signal s1 user_accel
              (Some (roll, pitch, yaw)) dt now1 now2 now3 Hf1)
    as (s2 & r & Hstep2 & _).
  exists s1, s2, r.
  split; [ exact Hstep1 | ]. split; [ exact Hstep2 | ].
  revert Hstep2. unfold DeadReckoningRun.step.
  destruct Hf1 as (Hg1 & _).
  destruct (DeadReckoning.last_gps_lat (DeadReckoningRun.dead_reckoning s1))
    as [g1 | ] eqn:Eg1; [ clear Hg1 | congruence ].
  rewrite Hm1. cbn [negb DeadReckoningRun.dead_reckoning
                      DeadReckoningRun.dr_mode].
  unfold DeadReckoning.start_dead_reckoning. rewrite Eg1. cbn [fst].
  match goal with
  | |- context [DeadReckoning.update_with_sensors ?d ?n ?u ?a ?t] =>
      destruct (DeadReckoning.update_with_sensors d n u a t)
        as [[d2 r2] | x] eqn:Hu; [ | discriminate ]
  end.
  intros E. inversion E. subst.
  apply DeadReckoningFacts.update_with_sensors_heading in Hu.
  cbn [DeadReckoningRun.dead_reckoning].
  rewrite Hd1 in Hu.
  destruct (DeadReckoningRun.dead_reckoning s)
    as [g glon gs gc gt la lo vn ve ly h a t0 u].
  cbn [DeadReckoning.last_yaw].
  destruct ly as [ly | ]; exact Hu.
Qed.
